(** * D.R.O.S.S chat server: classifier, prompt lookup, retrying generation
      adapter, SQLite-backed session store and the HTTP handlers on top.

    The development follows the newest TypeScript server (the variant with
    sessions and retries) and its [database.ts]; the older TypeScript and
    JavaScript variants of [getSystemPrompt] are kept in their own modules.

    A JavaScript string is the list of its UTF-16 code units, so lengths,
    [substring], [trim] and the search for a keyword count and compare what
    the engine counts and compares. *)

From Stdlib Require Import ZArith NArith Ascii String.
From Stdlib.Strings Require Import Byte.
From stdpp Require Import base option list strings gmap sorting.
From Equations Require Import Equations.
From stdpp Require Import pretty.

(** ** JavaScript strings *)

Abbreviation js_string := (list N).

(** String literals of this file are written in UTF-8 and read as the code
    units JavaScript holds for them: one unit up to U+FFFF, a surrogate pair
    above. *)
Module Literal.

Inductive units := unil | ucons (u : N) (rest : units).

Fixpoint to_units (t : list N) : units :=
  match t with
  | [] => unil
  | u :: t => ucons u (to_units t)
  end.

Fixpoint of_units (t : units) : list N :=
  match t with
  | unil => []
  | ucons u t => u :: of_units t
  end.

(** The payload of a continuation byte. *)
Definition low6 (b : byte) : N := (Byte.to_N b mod 64)%N.

Fixpoint decode (fuel : nat) (bs : list byte) : list N :=
  match fuel, bs with
  | O, _ => []
  | _, [] => []
  | S fuel, b :: rest =>
      let n := Byte.to_N b in
      if (n <? 128)%N then n :: decode fuel rest
      else
        match rest with
        | b1 :: rest1 =>
            if (n <? 224)%N
            then ((n - 192) * 64 + low6 b1)%N :: decode fuel rest1
            else
              match rest1 with
              | b2 :: rest2 =>
                  if (n <? 240)%N
                  then ((n - 224) * 4096 + low6 b1 * 64 + low6 b2)%N
                       :: decode fuel rest2
                  else
                    match rest2 with
                    | b3 :: rest3 =>
                        let above :=
                          ((n - 240) * 262144 + low6 b1 * 4096
                           + low6 b2 * 64 + low6 b3 - 65536)%N in
                        (55296 + above / 1024)%N :: (56320 + above mod 1024)%N
                        :: decode fuel rest3
                    | [] => [n]
                    end
              | [] => [n]
              end
        | [] => [n]
        end
  end.

Definition parse (bs : list byte) : units := to_units (decode (length bs) bs).

(** Only plain ASCII is printed back as a literal. *)
Definition print (t : units) : option (list byte) :=
  if forallb (fun u => (u <? 128)%N) (of_units t)
  then Some (omap Byte.of_N (of_units t))
  else None.

End Literal.

Declare Scope js_scope.
Delimit Scope js_scope with js.
#[warnings="-via-type-mismatch,-via-type-remapping"]
String Notation list Literal.parse Literal.print
  (via Literal.units mapping [[nil] => Literal.unil, [cons] => Literal.ucons])
  : js_scope.
Local Open Scope js_scope.

(** A text of ASCII characters, such as a printed number, as a JavaScript
    string. *)
Definition of_ascii (s : String.string) : js_string :=
  (fun c => N_of_ascii c) <$> list_ascii_of_string s.

(** ** Text primitives of the JavaScript runtime *)

Module Text.

(** The code units [String.prototype.toLowerCase] puts for one unit, as far
    as ASCII can come out of it: the capital letters, the Kelvin sign U+212A
    (which lowers to [k]) and the dotted capital I U+0130 (which lowers to [i]
    followed by U+0307).  Every other unit is kept: JavaScript may put another
    character there, but never an ASCII one, and the keywords that are looked
    for in lowered text are ASCII throughout. *)
Definition lower_unit (u : N) : list N :=
  if bool_decide (65 ≤ u ≤ 90)%N then [(u + 32)%N]
  else if bool_decide (u = 8490%N) then [107%N]
  else if bool_decide (u = 304%N) then [105%N; 775%N]
  else [u].

Definition toLowerCase (s : js_string) : js_string := s ≫= lower_unit.

(** What the [i] flag of a pattern without the [u] flag makes of a unit of
    the text, as far as a pattern of small ASCII letters, blanks and
    apostrophes can tell: a capital ASCII letter counts as its small one, and
    a unit outside ASCII never counts as an ASCII one. *)
Definition fold_unit (u : N) : N :=
  if bool_decide (65 ≤ u ≤ 90)%N then (u + 32)%N else u.

Definition ignoreCase (s : js_string) : js_string := fold_unit <$> s.

(** [s.startsWith(k)]. *)
Fixpoint startsWith (k s : js_string) : bool :=
  match k, s with
  | [], _ => true
  | _ :: _, [] => false
  | a :: k', b :: s' => if (a =? b)%N then startsWith k' s' else false
  end.

(** [s.includes(k)]: [k] occurs in [s] as a contiguous run of units.  A regular
    expression that is a plain literal tests exactly this. *)
Fixpoint includes (k s : js_string) : bool :=
  startsWith k s ||
  match s with
  | [] => false
  | _ :: s' => includes k s'
  end.

(** White space and line terminators as [trim] strips them: TAB, LF, VT, FF,
    CR, SPACE, U+00A0, U+1680, U+2000 to U+200A, U+2028, U+2029, U+202F,
    U+205F, U+3000 and U+FEFF. *)
Definition is_space (u : N) : bool :=
  bool_decide (9 ≤ u ≤ 13)%N || bool_decide (u = 32%N) ||
  bool_decide (u = 160%N) || bool_decide (u = 5760%N) ||
  bool_decide (8192 ≤ u ≤ 8202)%N ||
  bool_decide (u = 8232%N) || bool_decide (u = 8233%N) ||
  bool_decide (u = 8239%N) || bool_decide (u = 8287%N) ||
  bool_decide (u = 12288%N) || bool_decide (u = 65279%N).

Fixpoint trimStart (s : js_string) : js_string :=
  match s with
  | [] => []
  | c :: r => if is_space c then trimStart r else s
  end.

Fixpoint trimEnd (s : js_string) : js_string :=
  match s with
  | [] => []
  | c :: r =>
      match trimEnd r with
      | [] => if is_space c then [] else [c]
      | r' => c :: r'
      end
  end.

Definition trim (s : js_string) : js_string := trimEnd (trimStart s).

(** [s.substring(0, n)]: the first [n] code units. *)
Definition take (n : nat) (s : js_string) : js_string := firstn n s.

(** A string is white space only when every unit of it is. *)
Fixpoint blank (s : js_string) : bool :=
  match s with
  | [] => true
  | c :: r => is_space c && blank r
  end.

(** Declarative reading of "k occurs in s". *)
Definition occurs (k s : js_string) : Prop :=
  exists pre post, s = pre ++ k ++ post.

End Text.


(** ** Classifier *)

Inductive Mood := happy | sad | stressed | excited | neutral.

Definition Mood_to_string (m : Mood) : js_string :=
  match m with
  | happy => "happy" | sad => "sad" | stressed => "stressed"
  | excited => "excited" | neutral => "neutral"
  end.

(** The alternatives of each pattern, in source order. *)
Definition happy_words : list js_string :=
  ["happy"; "great"; "awesome"; "excited"; "amazing"; "wonderful"].
Definition sad_words : list js_string :=
  ["sad"; "depressed"; "down"; "lonely"; "upset"].
Definition stressed_words : list js_string :=
  ["stress"; "anxious"; "worried"; "overwhelmed"; "tired"; "drained"].
Definition excited_words : list js_string :=
  ["excited"; "can't wait"; "looking forward"; "pumped"].

Definition code_words : list js_string :=
  ["code"; "debug"; "error"; "function"; "component"; "api"; "bug";
   "programming"; "react"; "angular"; "typescript"].
Definition research_words : list js_string :=
  ["research"; "learn"; "explain"; "how does"; "what is"; "tell me about";
   "study"; "researching"].

(** [/(w1|w2|...)/i.test(s)]: some alternative occurs in [s], letter case
    apart.  The alternatives are lower case already, so folding the text is
    all the [i] flag adds. *)
Definition test (words : list js_string) (s : js_string) : bool :=
  existsb (fun w => Text.includes w (Text.ignoreCase s)) words.

Definition detectMood (text : js_string) : Mood :=
  let lower := Text.toLowerCase text in
  if test happy_words lower then happy
  else if test sad_words lower then sad
  else if test stressed_words lower then stressed
  else if test excited_words lower then excited
  else neutral.

(** A mode is whatever string the request body carries: the [Mode] type of
    the source is erased at run time and the body is not validated. *)
Definition friend : js_string := "friend".
Definition research : js_string := "research".
Definition code : js_string := "code".

Definition is_Mode (m : js_string) : bool :=
  bool_decide (m = friend) || bool_decide (m = research) || bool_decide (m = code).

(** [m || 'friend'] for an optional string: [undefined] and the empty string
    are falsy. *)
Definition or_friend (m : option js_string) : js_string :=
  match m with
  | Some s => if bool_decide (s = "") then friend else s
  | None => friend
  end.

Definition detectMode (text : js_string) (currentMode : option js_string) : js_string :=
  let lower := Text.toLowerCase text in
  if test code_words lower then code
  else if test research_words lower then research
  else or_friend currentMode.

(** [text] mentions [w] when [w] occurs in it, letter case apart. *)
Definition mentions (w text : js_string) : Prop :=
  Text.occurs w (Text.toLowerCase text).

Definition mood_words : list js_string :=
  happy_words ++ sad_words ++ stressed_words ++ excited_words.
Definition mode_words : list js_string := code_words ++ research_words.

(** ** The SQLite engine, as far as [database.ts] drives it *)

Inductive Role := user | assistant.

(** A row of [conversations].  [timestamp] is [CURRENT_TIMESTAMP], in whole
    seconds.  A text column holds the code units that were bound to it: the
    driver's passage through UTF-8 is taken to give text back as it was
    written. *)
Record Message := {
  id : Z;
  session_id : js_string;
  role : Role;
  content : js_string;
  mood : option js_string;
  mode : option js_string;
  timestamp : Z
}.

(** A row of [sessions]; the primary key [id] is the key of the table. *)
Record Session := {
  title : js_string;
  created_at : Z;
  updated_at : Z
}.

(** The open connection.  [foreign_keys] is the connection's
    [PRAGMA foreign_keys]; [sqlite_sequence] is the AUTOINCREMENT counter of
    [conversations]: the largest row id ever handed out. *)
Record Database := {
  foreign_keys : bool;
  sessions : gmap js_string Session;
  conversations : list Message;
  sqlite_sequence : Z
}.

(** [new sqlite3.Database(dbPath)] followed by the [CREATE TABLE IF NOT EXISTS]
    statements, on a fresh file.  SQLite leaves foreign-key enforcement off
    unless the connection runs [PRAGMA foreign_keys = ON], and [database.ts]
    never does. *)
Definition open_database : Database :=
  {| foreign_keys := false; sessions := ∅; conversations := [];
     sqlite_sequence := 0 |}.

(** The same connection with enforcement switched on, for comparison. *)
Definition pragma_foreign_keys (on : bool) (d : Database) : Database :=
  {| foreign_keys := on; sessions := sessions d;
     conversations := conversations d; sqlite_sequence := sqlite_sequence d |}.

Inductive SqliteError := SQLITE_CONSTRAINT_FOREIGNKEY | SQLITE_MISMATCH.

(** [INSERT OR IGNORE INTO sessions (id, title) VALUES (?, ?)]: a row whose
    primary key is taken is skipped. *)
Definition insert_or_ignore_session
    (now : Z) (sessionId title : js_string) (d : Database) : Database :=
  match sessions d !! sessionId with
  | Some _ => d
  | None =>
      {| foreign_keys := foreign_keys d;
         sessions := <[sessionId :=
                        {| title := title; created_at := now; updated_at := now |}]>
                     (sessions d);
         conversations := conversations d;
         sqlite_sequence := sqlite_sequence d |}
  end.

(** [UPDATE sessions SET title = ?, updated_at = CURRENT_TIMESTAMP WHERE id = ?]. *)
Definition update_session_title
    (now : Z) (sessionId title' : js_string) (d : Database) : Database :=
  {| foreign_keys := foreign_keys d;
     sessions := alter (fun s => {| title := title'; created_at := created_at s;
                                    updated_at := now |}) sessionId (sessions d);
     conversations := conversations d;
     sqlite_sequence := sqlite_sequence d |}.

(** [UPDATE sessions SET updated_at = CURRENT_TIMESTAMP WHERE id = ?]. *)
Definition update_session_timestamp
    (now : Z) (sessionId : js_string) (d : Database) : Database :=
  {| foreign_keys := foreign_keys d;
     sessions := alter (fun s => {| title := title s; created_at := created_at s;
                                    updated_at := now |}) sessionId (sessions d);
     conversations := conversations d;
     sqlite_sequence := sqlite_sequence d |}.

(** [DELETE FROM sessions WHERE id = ?].  The [ON DELETE CASCADE] clause of
    [conversations.session_id] acts only while foreign keys are enforced and
    only when a session row is really deleted. *)
Definition delete_from_sessions (sessionId : js_string) (d : Database) : Database :=
  {| foreign_keys := foreign_keys d;
     sessions := delete sessionId (sessions d);
     conversations :=
       if foreign_keys d && bool_decide (is_Some (sessions d !! sessionId))
       then filter (fun m => session_id m ≠ sessionId) (conversations d)
       else conversations d;
     sqlite_sequence := sqlite_sequence d |}.

(** [INSERT INTO conversations (session_id, role, content, mood, mode)
    VALUES (?, ?, ?, ?, ?)]; yields [lastID].  With foreign keys enforced the
    parent session has to exist. *)
Definition insert_conversation
    (now : Z) (sessionId : js_string) (r : Role) (text : js_string)
    (mood' mode' : option js_string) (d : Database) : SqliteError + (Z * Database) :=
  if foreign_keys d && bool_decide (sessions d !! sessionId = None)
  then inl SQLITE_CONSTRAINT_FOREIGNKEY
  else
    let lastID := (sqlite_sequence d + 1)%Z in
    inr (lastID,
         {| foreign_keys := foreign_keys d;
            sessions := sessions d;
            conversations :=
              conversations d ++
              [{| id := lastID; session_id := sessionId; role := r;
                  content := text; mood := mood'; mode := mode';
                  timestamp := now |}];
            sqlite_sequence := lastID |}).

(** Row [a] comes no later than row [b] in the index
    [idx_session_timestamp ON conversations(session_id, timestamp)]: index
    entries of one session are kept by timestamp, then by row id. *)
Definition index_le (a b : Message) : Prop :=
  (timestamp a < timestamp b ∨ (timestamp a = timestamp b ∧ id a ≤ id b))%Z.

#[global] Instance index_le_dec a b : Decision (index_le a b).
Proof. unfold index_le. apply _. Defined.

(** [a] is strictly older than [b]. *)
Definition older (a b : Message) : Prop :=
  (timestamp a < timestamp b ∨ (timestamp a = timestamp b ∧ id a < id b))%Z.

#[global] Instance older_dec a b : Decision (older a b).
Proof. unfold older. apply _. Defined.

(** [WHERE session_id = ?]: the turns of one session, in table order. *)
Definition turns_of (sessionId : js_string) (d : Database) : list Message :=
  filter (fun m => session_id m = sessionId) (conversations d).

(** [LIMIT ?]: a negative limit is no limit. *)
Definition sql_limit {A} (limit : Z) (rows : list A) : list A :=
  if (limit <? 0)%Z then rows else take (Z.to_nat limit) rows.

(** The bounds of the engine's integers. *)
Definition SMALLEST_INT64 : Z := (-9223372036854775808)%Z.
Definition LARGEST_INT64 : Z := 9223372036854775807%Z.

(** What the engine makes of a number bound to [LIMIT ?]; [limit] is the value
    of a JavaScript number that is an integer.  The driver binds a number that
    fits 32 bits as an integer and any other as a double; the engine takes a
    double for an integer only strictly between its bounds, and refuses the
    statement otherwise. *)
Definition must_be_int (limit : Z) : bool :=
  bool_decide (SMALLEST_INT64 < limit < LARGEST_INT64)%Z.

(** [SELECT * FROM conversations WHERE session_id = ? ORDER BY timestamp DESC
    LIMIT ?]: the session's index entries read backwards, newest first. *)
Definition select_history (sessionId : js_string) (limit : Z) (d : Database)
    : list Message :=
  sql_limit limit (merge_sort (flip index_le) (turns_of sessionId d)).

(** ** [database.ts]: promise wrappers around the statements *)

(** What a request can observe and change: the store, the wall clock in
    milliseconds, how many generation calls went out, and the delays waited.
    [latency n] is how long the provider takes over call number [n].  Time
    passes while the server waits, for a delay or for the provider; a
    statement of the store is taken to run at once. *)
Record World := {
  db : Database;
  clock : Z;
  calls : nat;
  delays : list Z;
  latency : nat → N
}.

Definition with_db (d : Database) (w : World) : World :=
  {| db := d; clock := clock w; calls := calls w; delays := delays w;
     latency := latency w |}.

(** [CURRENT_TIMESTAMP]. *)
Definition CURRENT_TIMESTAMP (w : World) : Z := (clock w / 1000)%Z.

(** A settled promise. *)
Inductive Settled (A : Type) :=
| resolved (a : A)
| rejected (err : SqliteError).
Arguments resolved {A} a.
Arguments rejected {A} err.

Definition Async (A : Type) : Type := World → Settled A * World.

Definition ret {A} (a : A) : Async A := fun w => (resolved a, w).

(** [await]: a rejection skips the rest of the [try] block; what was already
    written stays written. *)
Definition bind {A B} (m : Async A) (k : A → Async B) : Async B :=
  fun w =>
    match m w with
    | (resolved a, w') => k a w'
    | (rejected e, w') => (rejected e, w')
    end.

Notation "x ← 'await' m ; k" := (bind m (fun x => k))
  (at level 20, m at level 100, k at level 200, only parsing).
Notation "'await' m ; k" := (bind m (fun _ => k))
  (at level 20, m at level 100, k at level 200, only parsing).

Definition createSession (sessionId title : js_string) : Async () :=
  fun w =>
    (resolved (),
     with_db (insert_or_ignore_session (CURRENT_TIMESTAMP w) sessionId title (db w)) w).

Definition updateSessionTitle (sessionId title : js_string) : Async () :=
  fun w =>
    (resolved (),
     with_db (update_session_title (CURRENT_TIMESTAMP w) sessionId title (db w)) w).

Definition deleteSession (sessionId : js_string) : Async () :=
  fun w => (resolved (), with_db (delete_from_sessions sessionId (db w)) w).

Definition touchSession (sessionId : js_string) : Async () :=
  fun w =>
    (resolved (),
     with_db (update_session_timestamp (CURRENT_TIMESTAMP w) sessionId (db w)) w).

(** [touchSession] is started from the completion callback and not awaited.
    It only refreshes [updated_at], which no later step of a request reads, so
    it is applied on the spot.  Callers always pass [mood] and [mode]. *)
Definition saveMessage
    (sessionId : js_string) (r : Role) (text : js_string)
    (mood' mode' : option js_string) : Async Z :=
  fun w =>
    match insert_conversation (CURRENT_TIMESTAMP w) sessionId r text mood' mode' (db w) with
    | inl err => (rejected err, w)
    | inr (lastID, d) =>
        let '(_, w') := touchSession sessionId (with_db d w) in
        (resolved lastID, w')
    end.

(** [rows.reverse()] turns the newest-first scan into oldest-first; an error
    of the statement rejects the promise. *)
Definition getConversationHistory (sessionId : js_string) (limit : Z)
    : Async (list Message) :=
  fun w =>
    if must_be_int limit
    then (resolved (reverse (select_history sessionId limit (db w))), w)
    else (rejected SQLITE_MISMATCH, w).

(** ** Prompt templates *)

(** What a property read on an object literal can give back. *)
Inductive Value :=
| undefined
| str (s : js_string)
| inherited (name : js_string).

(** The property names every object literal inherits from
    [Object.prototype]. *)
Definition Object_prototype : list js_string :=
  ["constructor"; "__defineGetter__"; "__defineSetter__"; "hasOwnProperty";
   "__lookupGetter__"; "__lookupSetter__"; "isPrototypeOf";
   "propertyIsEnumerable"; "toString"; "valueOf"; "__proto__";
   "toLocaleString"].

Fixpoint own_property (props : list (js_string * js_string)) (key : js_string)
    : option js_string :=
  match props with
  | [] => None
  | (k, v) :: rest => if bool_decide (k = key) then Some v else own_property rest key
  end.

(** [obj[key]]. *)
Definition get (props : list (js_string * js_string)) (key : js_string) : Value :=
  match own_property props key with
  | Some v => str v
  | None => if bool_decide (key ∈ Object_prototype) then inherited key else undefined
  end.

(** [a || b] on property reads: [undefined] and the empty string are falsy. *)
Definition or_else (a b : Value) : Value :=
  match a with
  | undefined => b
  | str s => if bool_decide (s = "") then b else a
  | inherited _ => a
  end.

Definition nl : js_string := [10%N].

Fixpoint join (sep : js_string) (parts : list js_string) : js_string :=
  match parts with
  | [] => ""
  | [p] => p
  | p :: rest => p ++ sep ++ join sep rest
  end.

Definition research_template : js_string :=
  join nl
    ["You are D.R.O.S.S in Research Mode - a deep-thinking AI that helps explore topics thoroughly.";
     "";
     "Your role:";
     "- Provide detailed, well-structured explanations";
     "- Break down complex topics into understandable parts";
     "- Cite reasoning and suggest further areas to explore";
     "- Be intellectually curious and thorough";
     "- Ask clarifying questions when needed"].

(** The three servers differ in two lines of their templates: the newest one
    has two trailing blanks after "detail" and names the stacks. *)
Definition friend_template (detail : js_string) (mood' : js_string) : js_string :=
  join nl
    ["You are D.R.O.S.S (Digital Recovery Optimizer for Soulful Systems), a caring AI companion focused on emotional support and daily wellness. ";
     "";
     "Your role:";
     "- Be empathetic and conversational, like a close friend";
     "- Keep responses concise (2-4 sentences) unless user asks for " ++ detail;
     "- Detect and respond to the user's mood sensitively";
     "- Don't overwhelm with information - prioritize emotional connection";
     "- Ask follow-up questions to understand their state better";
     "";
     "Current detected mood: " ++ mood' ++ ". Respond accordingly."].

Definition code_template (stack : js_string) : js_string :=
  join nl
    ["You are D.R.O.S.S in Code Mode - a programming assistant helping debug and explain code.";
     "";
     "Your role:";
     "- Help debug errors and explain technical concepts";
     "- Provide code examples when relevant";
     "- Ask about the specific technology stack" ++ stack;
     "- Suggest best practices and optimizations";
     "- Keep explanations clear and actionable"].

(** The [prompts] table of the newest server. *)
Definition prompts (mood' : Mood) : list (js_string * js_string) :=
  [("friend", friend_template "detail  " (Mood_to_string mood'));
   ("research", research_template);
   ("code", code_template " (React, Angular, Node, etc.)")].

(** [return prompts[mode]]. *)
Definition getSystemPrompt (mode' : js_string) (mood' : Mood) : Value :=
  get (prompts mood') mode'.

(** The older TypeScript server. *)
Module ServerTs.

Definition prompts (mood' : Mood) : list (js_string * js_string) :=
  [("friend", friend_template "detail" (Mood_to_string mood'));
   ("research", research_template);
   ("code", code_template "")].

Definition getSystemPrompt (mode' : js_string) (mood' : Mood) : Value :=
  get (prompts mood') mode'.

End ServerTs.

(** The JavaScript server: [return prompts[mode] || prompts.friend]. *)
Module ServerJs.

Definition prompts (mood' : Mood) : list (js_string * js_string) :=
  ServerTs.prompts mood'.

Definition getSystemPrompt (mode' : js_string) (mood' : Mood) : Value :=
  or_else (get (prompts mood') mode') (get (prompts mood') "friend").

End ServerJs.

(** ** Generation adapter *)

(** How one [generateContent] round trip ends: with the model's text, or with
    an error that may carry an HTTP [status]. *)
Inductive Outcome :=
| generated (text : js_string)
| failed (status : option Z).

(** [await new Promise(resolve => setTimeout(resolve, ms))]. *)
Definition sleep (ms : Z) (w : World) : World :=
  {| db := db w; clock := (clock w + ms)%Z; calls := calls w;
     delays := delays w ++ [ms]; latency := latency w |}.

(** One [await model.generateContent(...)] has settled: the call is counted
    and the time it took has passed. *)
Definition called (w : World) : World :=
  {| db := db w; clock := (clock w + Z.of_N (latency w (calls w)))%Z;
     calls := S (calls w); delays := delays w; latency := latency w |}.

(** [history.slice(-6)]. *)
Definition slice_last {A} (n : nat) (l : list A) : list A :=
  drop (length l - n) l.

Definition history_line (msg : Message) : js_string :=
  (match role msg with user => "User" | assistant => "D.R.O.S.S" end)
  ++ ": " ++ content msg.

(** The replies of the [catch] block once no retry follows. *)
Definition rate_limited : js_string :=
  "I'm getting rate limited. Give me a minute and try again! 🕐".
Definition confused : js_string :=
  "Something about that message confused me. Can you rephrase it? 🤔".
Definition trouble_connecting : js_string :=
  "I'm having trouble connecting right now. Can you try again? 🔄".

Definition apology (status : option Z) : js_string :=
  if bool_decide (status = Some 429%Z) then rate_limited
  else if bool_decide (status = Some 400%Z ∨ status = Some 403%Z) then confused
  else trouble_connecting.

(** [retries > 0 && error?.status !== 400 && error?.status !== 403]. *)
Definition retryable (retries : Z) (status : option Z) : Prop :=
  (0 < retries)%Z ∧ status ≠ Some 400%Z ∧ status ≠ Some 403%Z.

#[global] Instance retryable_dec retries status : Decision (retryable retries status).
Proof. unfold retryable. apply _. Defined.

Section Server.

(** The provider: the outcome of the [n]-th call made so far, given its
    prompt.  [builtin_text] is the engine's printed form of a value inherited
    from [Object.prototype]. *)
Context (generateContent : nat → js_string → Outcome).
Context (builtin_text : js_string → js_string).

(** A value spliced into a template literal. *)
Definition interpolate (v : Value) : js_string :=
  match v with
  | undefined => "undefined"
  | str s => s
  | inherited name => builtin_text name
  end.

Definition build_prompt
    (message : js_string) (mood' : Mood) (mode' : js_string) (history : list Message)
    : js_string :=
  let systemPrompt := getSystemPrompt mode' mood' in
  let conversationHistory := join nl (history_line <$> slice_last 6 history) in
  interpolate systemPrompt ++ nl ++ nl ++
  "Previous conversation:" ++ nl ++
  conversationHistory ++ nl ++ nl ++
  "User (" ++ Mood_to_string mood' ++ "): " ++ message ++ nl ++ nl ++
  "D.R.O.S.S:".

Equations? generateAIResponse
    (message : js_string) (mood' : Mood) (mode' : js_string) (history : list Message)
    (retries : Z) (w : World) : Settled js_string * World
    by wf (Z.to_nat retries) lt :=
generateAIResponse message mood' mode' history retries w
    with generateContent (calls w) (build_prompt message mood' mode' history) := {
  | generated text => (resolved text, called w)
  | failed status with decide (retryable retries status) := {
    | left _ =>
        generateAIResponse message mood' mode' history (retries - 1)
          (sleep 1000 (called w))
    | right _ => (resolved (apology status), called w) } }.
Proof. unfold retryable in *. lia. Qed.

(** ** HTTP surface *)

(** [req.body] of [POST /api/chat]; an absent field reads [undefined]. *)
Record ChatRequest := {
  req_message : option js_string;
  req_sessionId : option js_string;
  req_mode : option js_string
}.

Inductive Body :=
| chat_json (response : js_string) (mood' : Mood) (mode' : js_string)
| history_json (rows : list Message)
| success_json
| error_json (error : js_string).

Record Response := {
  status : Z;
  body : Body
}.

(** [res.json(...)] answers 200 unless [res.status(...)] came first. *)
Definition json (b : Body) : Response := {| status := 200; body := b |}.

(** The canned reply of the validation branch. *)
Definition didnt_catch : js_string := "I didn't catch that. Can you type something?".

(** The [try] block of the chat handler.  [generateAIResponse] is called
    without [retries], which then defaults to 2. *)
Definition chat_try (req : ChatRequest) : Async Response :=
  let sessionId := default "default" (req_sessionId req) in
  let mode' := req_mode req in
  match req_message req with
  | None =>
      ret {| status := 400;
             body := chat_json didnt_catch
                       neutral (or_friend mode') |}
  | Some message =>
      if bool_decide (message = "") || bool_decide (Text.trim message = "") then
        ret {| status := 400;
               body := chat_json didnt_catch
                         neutral (or_friend mode') |}
      else
        let trimmedMessage := Text.trim message in
        await createSession sessionId (Text.take 50 trimmedMessage ++ "...");
        let detectedMood := detectMood trimmedMessage in
        let detectedMode := detectMode trimmedMessage mode' in
        await saveMessage sessionId user trimmedMessage
                (Some (Mood_to_string detectedMood)) (Some detectedMode);
        history ← await getConversationHistory sessionId 10;
        response ← await generateAIResponse trimmedMessage detectedMood
                           detectedMode history 2;
        await saveMessage sessionId assistant response
                (Some (Mood_to_string detectedMood)) (Some detectedMode);
        ret (json (chat_json response detectedMood detectedMode))
  end.

(** [app.post('/api/chat', ...)]: the [catch] block answers 500. *)
Definition post_api_chat (req : ChatRequest) (w : World) : Response * World :=
  match chat_try req w with
  | (resolved res, w') => (res, w')
  | (rejected _, w') =>
      ({| status := 500;
          body := chat_json "Something went wrong. Let's try that again."
                    neutral (or_friend (req_mode req)) |}, w')
  end.

(** [app.get('/api/history/:sessionId', ...)]. *)
Definition get_api_history (sessionId : js_string) (w : World) : Response * World :=
  match getConversationHistory sessionId 50 w with
  | (resolved history, w') => (json (history_json history), w')
  | (rejected _, w') => ({| status := 500; body := history_json [] |}, w')
  end.

(** [app.delete('/api/sessions/:sessionId', ...)]. *)
Definition delete_api_session (sessionId : js_string) (w : World) : Response * World :=
  match deleteSession sessionId w with
  | (resolved _, w') => (json success_json, w')
  | (rejected _, w') =>
      ({| status := 500; body := error_json "Failed to delete session" |}, w')
  end.

(** [app.patch('/api/sessions/:sessionId', ...)]. *)
Definition patch_api_session (sessionId title' : js_string) (w : World)
    : Response * World :=
  match updateSessionTitle sessionId title' w with
  | (resolved _, w') => (json success_json, w')
  | (rejected _, w') =>
      ({| status := 500; body := error_json "Failed to update session" |}, w')
  end.

(** The middleware in front of every route: without a configured key the
    request is answered 503 and no handler runs. *)
Definition require_api_key
    (GEMINI_API_KEY : option js_string) (handler : World → Response * World)
    (w : World) : Response * World :=
  match GEMINI_API_KEY with
  | Some key =>
      if bool_decide (key = "")
      then ({| status := 503;
               body := error_json "Service temporarily unavailable - configuration issue" |}, w)
      else handler w
  | None =>
      ({| status := 503;
          body := error_json "Service temporarily unavailable - configuration issue" |}, w)
  end.

End Server.

(** ** Session list and session creation *)

(** A row of the session list: the session with its live turn count. *)
Record SessionRow := {
  row_id : js_string;
  row_title : js_string;
  row_created_at : Z;
  row_updated_at : Z;
  message_count : nat
}.

(** One group of [sessions s LEFT JOIN conversations c ON s.id = c.session_id
    GROUP BY s.id]: [COUNT(c.id)] counts the joined turns, none for a session
    without turns. *)
Definition session_row (d : Database) (kv : js_string * Session) : SessionRow :=
  {| row_id := kv.1; row_title := title kv.2;
     row_created_at := created_at kv.2; row_updated_at := updated_at kv.2;
     message_count := length (turns_of kv.1 d) |}.

(** [ORDER BY s.updated_at DESC]. *)
Definition updated_ge (a b : SessionRow) : Prop :=
  (row_updated_at b ≤ row_updated_at a)%Z.

#[global] Instance updated_ge_dec a b : Decision (updated_ge a b).
Proof. unfold updated_ge. apply _. Defined.

(** The statement of [getAllSessions].  Rows with equal [updated_at] come out
    in an order of the engine's choosing; the embedding picks one, and nothing
    stated about it depends on the pick. *)
Definition select_sessions (d : Database) : list SessionRow :=
  merge_sort updated_ge (session_row d <$> map_to_list (sessions d)).

Definition getAllSessions : Async (list SessionRow) :=
  fun w => (resolved (select_sessions (db w)), w).

(** An answer of a route whose body is not one of the chat shapes. *)
Record Reply (B : Type) := {
  reply_status : Z;
  reply_body : B
}.
Arguments reply_status {B} _.
Arguments reply_body {B} _.

(** [app.get('/api/sessions', ...)]. *)
Definition get_api_sessions (w : World) : Reply (list SessionRow) * World :=
  match getAllSessions w with
  | (resolved rows, w') => ({| reply_status := 200; reply_body := rows |}, w')
  | (rejected _, w') => ({| reply_status := 500; reply_body := [] |}, w')
  end.

(** [title || 'New Chat']. *)
Definition or_new_chat (t : option js_string) : js_string :=
  match t with
  | Some s => if bool_decide (s = "") then "New Chat" else s
  | None => "New Chat"
  end.

(** ['session-' + Date.now()]. *)
Definition fresh_session_id (w : World) : js_string :=
  "session-" ++ of_ascii (pretty (clock w)).

(** [app.post('/api/sessions', ...)]; the body of the answer is [{id, title}]. *)
Definition post_api_sessions (req_title : option js_string) (w : World)
    : Reply (js_string * js_string) * World :=
  let sessionId := fresh_session_id w in
  let title' := or_new_chat req_title in
  match createSession sessionId title' w with
  | (resolved _, w') =>
      ({| reply_status := 200; reply_body := (sessionId, title') |}, w')
  | (rejected _, w') =>
      ({| reply_status := 500; reply_body := ("", "") |}, w')
  end.

(** ** The first TypeScript server and its [database.ts] *)

Module OldServer.

Definition code_words : list js_string :=
  ["code"; "debug"; "error"; "function"; "component"; "api"; "bug";
   "programming"].
Definition research_words : list js_string :=
  ["research"; "learn"; "explain"; "how does"; "what is"; "tell me about";
   "study"].

Definition detectMode (text : js_string) (currentMode : option js_string) : js_string :=
  let lower := Text.toLowerCase text in
  if test code_words lower then code
  else if test research_words lower then research
  else or_friend currentMode.

(** The reply of the [catch] block of the adapter. *)
Definition trouble_connecting : js_string :=
  "I'm having trouble connecting right now. Can you try again?".

(** The reply of the [catch] block of the chat handler. *)
Definition went_wrong : js_string := "Something went wrong. Let's try that again.".

(** [INSERT INTO conversations ...] on the schema without a [sessions] table:
    there is no parent to check. *)
Definition insert_conversation
    (now : Z) (sessionId : js_string) (r : Role) (text : js_string)
    (mood' mode' : option js_string) (d : Database) : Z * Database :=
  let lastID := (sqlite_sequence d + 1)%Z in
  (lastID,
   {| foreign_keys := foreign_keys d;
      sessions := sessions d;
      conversations :=
        conversations d ++
        [{| id := lastID; session_id := sessionId; role := r;
            content := text; mood := mood'; mode := mode';
            timestamp := now |}];
      sqlite_sequence := lastID |}).

(** No session is touched after the insert. *)
Definition saveMessage
    (sessionId : js_string) (r : Role) (text : js_string)
    (mood' mode' : option js_string) (w : World) : Z * World :=
  let '(lastID, d) :=
    insert_conversation (CURRENT_TIMESTAMP w) sessionId r text mood' mode' (db w) in
  (lastID, with_db d w).

Section Handlers.

Context (generateContent : nat → js_string → Outcome).
Context (builtin_text : js_string → js_string).

(** [ORDER BY timestamp DESC] on the schema without an index: the engine
    sorts, and how it places rows of equal timestamp is its own business. *)
Context (order_by_timestamp_desc : list Message → list Message).

Definition getConversationHistory (sessionId : js_string) (limit : Z) (w : World)
    : SqliteError + list Message :=
  if must_be_int limit
  then inr (reverse (sql_limit limit
                       (order_by_timestamp_desc (turns_of sessionId (db w)))))
  else inl SQLITE_MISMATCH.

Definition build_prompt
    (message : js_string) (mood' : Mood) (mode' : js_string) (history : list Message)
    : js_string :=
  let systemPrompt := ServerTs.getSystemPrompt mode' mood' in
  let conversationHistory := join nl (history_line <$> slice_last 6 history) in
  interpolate builtin_text systemPrompt ++ nl ++ nl ++
  "Previous conversation:" ++ nl ++
  conversationHistory ++ nl ++ nl ++
  "User (" ++ Mood_to_string mood' ++ "): " ++ message ++ nl ++ nl ++
  "D.R.O.S.S:".

(** One attempt, no retry. *)
Definition generateAIResponse
    (message : js_string) (mood' : Mood) (mode' : js_string) (history : list Message)
    (w : World) : js_string * World :=
  match generateContent (calls w) (build_prompt message mood' mode' history) with
  | generated text => (text, called w)
  | failed _ => (trouble_connecting, called w)
  end.

(** [app.post('/api/chat', ...)].  Nothing is validated: with no [message]
    the first [text.toLowerCase()] throws and the [catch] block answers. *)
Definition post_api_chat (req : ChatRequest) (w : World) : Response * World :=
  match req_message req with
  | None =>
      ({| status := 500;
          body := chat_json went_wrong neutral (or_friend (req_mode req)) |}, w)
  | Some message =>
      let sessionId := default "default" (req_sessionId req) in
      let detectedMood := detectMood message in
      let detectedMode := detectMode message (req_mode req) in
      let '(_, w1) :=
        saveMessage sessionId user message
          (Some (Mood_to_string detectedMood)) (Some detectedMode) w in
      match getConversationHistory sessionId 10 w1 with
      | inl _ =>
          ({| status := 500;
              body := chat_json went_wrong neutral (or_friend (req_mode req)) |},
           w1)
      | inr history =>
          let '(response, w2) :=
            generateAIResponse message detectedMood detectedMode history w1 in
          let '(_, w3) :=
            saveMessage sessionId assistant response
              (Some (Mood_to_string detectedMood)) (Some detectedMode) w2 in
          (json (chat_json response detectedMood detectedMode), w3)
      end
  end.

End Handlers.

End OldServer.

(** ** The first [database.ts]: sessions read off the turns *)

Module OldDatabase.

Record SessionSummary := {
  group_session_id : js_string;
  started_at : Z;
  last_message_at : Z;
  message_count : nat
}.

(** [MIN(timestamp)] and [MAX(timestamp)] of a group with a first row. *)
Definition min_timestamp (first : Z) (rest : list Z) : Z := foldr Z.min first rest.
Definition max_timestamp (first : Z) (rest : list Z) : Z := foldr Z.max first rest.

(** One group of [GROUP BY session_id]. *)
Definition summary (rows : list Message) (sessionId : js_string) : SessionSummary :=
  let stamps := timestamp <$> filter (fun m => session_id m = sessionId) rows in
  {| group_session_id := sessionId;
     started_at := min_timestamp (default 0%Z (head stamps)) (tail stamps);
     last_message_at := max_timestamp (default 0%Z (head stamps)) (tail stamps);
     message_count := length stamps |}.

(** [ORDER BY last_message_at DESC]. *)
Definition last_ge (a b : SessionSummary) : Prop :=
  (last_message_at b ≤ last_message_at a)%Z.

#[global] Instance last_ge_dec a b : Decision (last_ge a b).
Proof. unfold last_ge. apply _. Defined.

(** The statement of [getAllSessions]: one row per session id that occurs in
    [conversations].  As in the newer session list, the order among equal
    [last_message_at] is the engine's and the embedding picks one. *)
Definition getAllSessions (d : Database) : list SessionSummary :=
  merge_sort last_ge
    (summary (conversations d) <$> remove_dups (session_id <$> conversations d)).

End OldDatabase.

(** ** Client: relative time stamps *)

Section Client.

(** [new Date(s).getTime()], with [None] for the not-a-number of a text that
    is no date, and the clock text the browser prints for a date. *)
Context (getTime : String.string → option Z).
Context (toLocaleTimeString : option Z → String.string).

(** [formatTimestamp]; [now] is the [new Date()] it takes.  Every comparison
    with not-a-number is false, so a text that is no date falls through to the
    clock text.  The texts of this function are time stamps and printed
    numbers; they are kept as plain character strings. *)
Definition formatTimestamp (now : Z) (timestamp : option String.string) : String.string :=
  match timestamp with
  | None => ""%string
  | Some ts =>
      if bool_decide (ts = ""%string) then ""%string
      else
        match getTime ts with
        | None => toLocaleTimeString None
        | Some date =>
            let diff := (now - date)%Z in
            let minutes := (diff / 60000)%Z in
            let hours := (diff / 3600000)%Z in
            if (minutes <? 1)%Z then "Just now"%string
            else if (minutes <? 60)%Z then (pretty minutes ++ "m ago")%string
            else if (hours <? 24)%Z then (pretty hours ++ "h ago")%string
            else toLocaleTimeString (Some date)
        end
  end.

End Client.

(** ** Vocabulary of the statements *)

(** The time the provider takes over [k] calls, from call number [first]. *)
Fixpoint spent (latency : nat → N) (first k : nat) : Z :=
  match k with
  | 0 => 0
  | S k => (Z.of_N (latency first) + spent latency (S first) k)%Z
  end.

(** The world after [k] failed attempts, each followed by the fixed delay. *)
Definition after_retries (k : nat) (w : World) : World :=
  {| db := db w;
     clock := (clock w + 1000 * Z.of_nat k + spent (latency w) (calls w) k)%Z;
     calls := calls w + k; delays := delays w ++ replicate k 1000%Z;
     latency := latency w |}.

(** The invariant AUTOINCREMENT maintains: row ids are pairwise distinct and
    none exceeds the counter. *)
Definition well_formed (d : Database) : Prop :=
  NoDup (id <$> conversations d) ∧
  Forall (fun m => (id m ≤ sqlite_sequence d)%Z) (conversations d).

(** A computation keeps [P] when every run from a world in [P] ends in [P],
    whether it resolves or rejects. *)
Definition preserves {A} (P : World → Prop) (m : Async A) : Prop :=
  ∀ w out w', P w → m w = (out, w') → P w'.

(** The invariant, read on a world. *)
Definition stored_well (w : World) : Prop := well_formed (db w).

(** A connection opened with enforcement on, for comparison. *)
Definition enforcing_world : World :=
  {| db := pragma_foreign_keys true open_database; clock := 5000; calls := 0;
     delays := []; latency := fun _ => 120%N |}.

(** [text] mentions some word of the table. *)
Definition mentions_any (words : list js_string) (text : js_string) : Prop :=
  ∃ w, w ∈ words ∧ mentions w text.

(** The keywords only the newest server knows. *)
Definition framework_words : list js_string := ["react"; "angular"; "typescript"].

(** The store after a turn was saved into an existing session: the row is
    appended and the session touched. *)
Definition stored_turn
    (now : Z) (sessionId : js_string) (r : Role) (text : js_string)
    (mood' mode' : option js_string) (d : Database) : Database :=
  update_session_timestamp now sessionId
    (OldServer.insert_conversation now sessionId r text mood' mode' d).2.

(** Turns sit in the table in chronological order and none is stamped later
    than [now]. *)
Definition ordered_at (now : Z) (d : Database) : Prop :=
  well_formed d ∧
  StronglySorted older (conversations d) ∧
  Forall (fun m => (timestamp m ≤ now)%Z) (conversations d).

(** The same, with the clock of the world for [now]. *)
Definition time_ordered (w : World) : Prop :=
  ordered_at (CURRENT_TIMESTAMP w) (db w).

(** [history.slice(-n)] as a list operation: the last [n] elements. *)
Definition last_n {A} (n : nat) (l : list A) : list A :=
  drop (length l - n) l.

(** Every turn belongs to a stored session. *)
Definition referenced (d : Database) : Prop :=
  Forall (fun m => is_Some (sessions d !! session_id m)) (conversations d).

(** What can happen to the server: a request on one of its routes, or time
    passing. *)
Inductive Event :=
| PostChat (req : ChatRequest)
| GetHistory (sessionId : js_string)
| GetSessions
| PostSessions (title' : option js_string)
| PatchSession (sessionId title' : js_string)
| DeleteSession (sessionId : js_string)
| Elapse (ms : N).

Definition elapse (ms : N) (w : World) : World :=
  {| db := db w; clock := (clock w + Z.of_N ms)%Z; calls := calls w;
     delays := delays w; latency := latency w |}.

(** The world after one event. *)
Definition handle
    (generateContent : nat → js_string → Outcome) (builtin_text : js_string → js_string)
    (e : Event) (w : World) : World :=
  match e with
  | PostChat req => (post_api_chat generateContent builtin_text req w).2
  | GetHistory sessionId => (get_api_history sessionId w).2
  | GetSessions => (get_api_sessions w).2
  | PostSessions title' => (post_api_sessions title' w).2
  | PatchSession sessionId title' => (patch_api_session sessionId title' w).2
  | DeleteSession sessionId => (delete_api_session sessionId w).2
  | Elapse ms => elapse ms w
  end.

(** The world after a sequence of events, served one after the other. *)
Definition run
    (generateContent : nat → js_string → Outcome) (builtin_text : js_string → js_string)
    (events : list Event) (w : World) : World :=
  foldl (fun w e => handle generateContent builtin_text e w) w events.

(** A provider that fails [n] calls with status [st], then answers. *)
Definition failing_then_answering (n : nat) (st : option Z) (text : js_string)
    : nat → js_string → Outcome :=
  fun i _ => if (i <? n)%nat then failed st else generated text.

(** Sample inputs used to exercise the statements. *)
Definition sample_turn (i : Z) (r : Role) (text : js_string) : Message :=
  {| id := i; session_id := "s1"; role := r; content := text;
     mood := Some "neutral"; mode := Some "friend"; timestamp := i |}.


Definition always_failing (st : option Z) : nat → js_string → Outcome :=
  fun _ _ => failed st.

Definition always_answering (text : js_string) : nat → js_string → Outcome :=
  fun _ _ => generated text.

(** A provider that answers with the prompt it was sent. *)
Definition echoing : nat → js_string → Outcome :=
  fun _ prompt => generated prompt.

Definition plain_builtin_text : js_string → js_string := fun name => name.

Definition fresh_world : World :=
  {| db := open_database; clock := 5000; calls := 0; delays := [];
     latency := fun _ => 120%N |}.

Definition excited_request : ChatRequest :=
  {| req_message := Some "I'm so excited about this!";
     req_sessionId := Some "s1";
     req_mode := None |}.

Definition blank_request : ChatRequest :=
  {| req_message := Some "   ";
     req_sessionId := Some "s1";
     req_mode := Some "code" |}.

(** The store after one chat under "s1". *)
Definition sample_world : World :=
  snd (post_api_chat (always_answering "Glad to hear it!") plain_builtin_text
         excited_request fresh_world).

(** * Properties *)

(** ** Text primitives *)

Section TextFacts.
Import Text.

Lemma lower_unit_cases u :
  (65 ≤ u ≤ 90)%N ∧ lower_unit u = [(u + 32)%N] ∨
  u = 8490%N ∧ lower_unit u = [107%N] ∨
  u = 304%N ∧ lower_unit u = [105%N; 775%N] ∨
  (¬ (65 ≤ u ≤ 90)%N ∧ u ≠ 8490%N ∧ u ≠ 304%N) ∧ lower_unit u = [u].
Proof. unfold lower_unit. repeat case_bool_decide; auto 10. Qed.

Lemma lower_unit_kept u :
  ¬ (65 ≤ u ≤ 90)%N → u ≠ 8490%N → u ≠ 304%N → lower_unit u = [u].
Proof. intros. unfold lower_unit. by rewrite !bool_decide_eq_false_2. Qed.

(** Lowered text holds no capital ASCII letter. *)
Lemma fold_lower_unit u : fold_unit <$> lower_unit u = lower_unit u.
Proof.
  destruct (lower_unit_cases u) as [[Hu ->] | [[-> ->] | [[-> ->] | [[Hu _] ->]]]];
    try done; simpl; unfold fold_unit; by rewrite bool_decide_eq_false_2 by lia.
Qed.

Lemma toLowerCase_cons u s : toLowerCase (u :: s) = lower_unit u ++ toLowerCase s.
Proof. done. Qed.

Lemma toLowerCase_app a b : toLowerCase (a ++ b) = toLowerCase a ++ toLowerCase b.
Proof. apply bind_app. Qed.

(** On text that was lowered the [i] flag changes nothing. *)
Lemma ignoreCase_lower s : ignoreCase (toLowerCase s) = toLowerCase s.
Proof.
  unfold ignoreCase. induction s as [|c s IH]; [done|].
  by rewrite toLowerCase_cons, fmap_app, IH, fold_lower_unit.
Qed.

Lemma startsWith_spec k s : startsWith k s = true ↔ ∃ post, s = k ++ post.
Proof.
  revert s. induction k as [|a k IH]; intros s; simpl.
  - split; [intros _; by exists s | done].
  - destruct s as [|b s].
    + split; [done | intros [post Hpost]; discriminate].
    + destruct (N.eqb_spec a b) as [->|Hne].
      * rewrite IH. split; intros [post Hpost]; exists post.
        -- by rewrite Hpost.
        -- by injection Hpost.
      * split; [done | intros [post Hpost]; injection Hpost; congruence].
Qed.

Lemma includes_spec k s : includes k s = true ↔ occurs k s.
Proof.
  unfold occurs. induction s as [|b s IH]; simpl.
  - rewrite orb_false_r, startsWith_spec. split.
    + intros [post Hpost]. by exists "", post.
    + intros ([|c pre] & post & Hs); [by exists post | discriminate].
  - rewrite orb_true_iff, startsWith_spec, IH. split.
    + intros [[post Hpost] | (pre & post & Hs)].
      * by exists "", post.
      * exists ((b :: pre)), post. simpl. by rewrite Hs.
    + intros ([|c pre] & post & Hs).
      * left. by exists post.
      * right. exists pre, post. simpl in Hs. by injection Hs.
Qed.

Lemma includes_false k s : includes k s = false ↔ ¬ occurs k s.
Proof. rewrite <- includes_spec. by destruct (includes k s). Qed.

Lemma trimEnd_blank s : blank s = true → trimEnd s = "".
Proof.
  induction s as [|c s IH]; simpl; [done|].
  intros [Hc Hs]%andb_true_iff. by rewrite IH, Hc.
Qed.

Lemma trimEnd_empty s : trimEnd s = "" → blank s = true.
Proof.
  induction s as [|c s IH]; simpl; [done|].
  destruct (trimEnd s); [|done].
  destruct (is_space c); [|done]. intros _. by rewrite IH.
Qed.

Lemma trimStart_blank s : blank s = true → trimStart s = "".
Proof.
  induction s as [|c s IH]; simpl; [done|].
  intros [Hc Hs]%andb_true_iff. rewrite Hc. auto.
Qed.

Lemma blank_trimStart s : blank (trimStart s) = true → blank s = true.
Proof.
  induction s as [|c s IH]; simpl; [done|].
  destruct (is_space c) eqn:Hc; [done|]. simpl. by rewrite Hc.
Qed.

(** Only white space trims to nothing. *)
Lemma trim_empty_iff s : trim s = "" ↔ blank s = true.
Proof.
  unfold trim. split.
  - intros H. by apply blank_trimStart, trimEnd_empty.
  - intros H. by rewrite (trimStart_blank s H).
Qed.

(** White space has no other case. *)
Lemma lower_unit_space u : is_space u = true → lower_unit u = [u].
Proof.
  unfold is_space. rewrite !orb_true_iff, !bool_decide_eq_true. intros Hu.
  apply lower_unit_kept; lia.
Qed.

Lemma blank_lower s : blank s = true → blank (toLowerCase s) = true.
Proof.
  induction s as [|c s IH]; [done|].
  rewrite toLowerCase_cons. simpl. intros [Hc Hs]%andb_true_iff.
  rewrite (lower_unit_space c Hc). simpl.
  by rewrite Hc, IH.
Qed.

(** A word that starts with a visible character is not found in white space. *)
Lemma includes_blank c k s :
  is_space c = false → blank s = true → includes ((c :: k)) s = false.
Proof.
  intros Hc. induction s as [|b s IH]; simpl; [done|].
  intros [Hb Hs]%andb_true_iff. rewrite IH by done.
  destruct (N.eqb_spec c b) as [->|]; [congruence | done].
Qed.

End TextFacts.

(** ** Classifier *)

Lemma test_false words text :
  test words (Text.toLowerCase text) = false ↔ ∀ w, w ∈ words → ¬ mentions w text.
Proof.
  unfold test, mentions. rewrite ignoreCase_lower.
  induction words as [|w words IH]; simpl.
  - split; [intros _ w Hw; by apply not_elem_of_nil in Hw | done].
  - rewrite orb_false_iff, IH, includes_false. split.
    + intros [Hw Hws] w' [->|Hin]%elem_of_cons; auto.
    + intros H. split; [apply H; left | intros w' Hw'; apply H; by right].
Qed.

Lemma test_true words text :
  test words (Text.toLowerCase text) = true ↔ ∃ w, w ∈ words ∧ mentions w text.
Proof.
  unfold test, mentions. rewrite ignoreCase_lower.
  rewrite existsb_exists. setoid_rewrite includes_spec.
  by setoid_rewrite list_elem_of_In.
Qed.

Lemma test_blank words text :
  Forall (fun w => ∃ c k, w = (c :: k) ∧ Text.is_space c = false) words →
  Text.blank text = true → test words (Text.toLowerCase text) = false.
Proof.
  intros Hwords Hblank. unfold test. rewrite ignoreCase_lower.
  induction Hwords as [|w words (c & k & -> & Hc) _ IH]; simpl; [done|].
  rewrite IH, orb_false_r. by apply includes_blank, blank_lower.
Qed.

Lemma words_visible words :
  forallb (fun w => match w with
                    | [] => false
                    | c :: _ => negb (Text.is_space c)
                    end) words = true →
  Forall (fun w => ∃ c k, w = (c :: k) ∧ Text.is_space c = false) words.
Proof.
  induction words as [|w words IH]; simpl; [constructor|].
  intros [Hw Hws]%andb_true_iff. constructor; [|auto].
  destruct w as [|c k]; [done|]. exists c, k. split; [done|].
  by destruct (Text.is_space c).
Qed.

Lemma detectMood_no_word text :
  (∀ w, w ∈ mood_words → ¬ mentions w text) → detectMood text = neutral.
Proof.
  intros H. unfold detectMood; cbv zeta.
  assert (∀ ws, ws ⊆ mood_words → test ws (Text.toLowerCase text) = false) as Hno.
  { intros ws Hws. apply test_false. intros w Hw. apply H, Hws, Hw. }
  rewrite !Hno; [done | ..]; unfold mood_words; intros w Hw;
    rewrite !elem_of_app; tauto.
Qed.

Lemma detectMode_no_word text currentMode :
  (∀ w, w ∈ mode_words → ¬ mentions w text) →
  detectMode text currentMode = or_friend currentMode.
Proof.
  intros H. unfold detectMode; cbv zeta.
  assert (∀ ws, ws ⊆ mode_words → test ws (Text.toLowerCase text) = false) as Hno.
  { intros ws Hws. apply test_false. intros w Hw. apply H, Hws, Hw. }
  rewrite !Hno; [done | ..]; unfold mode_words; intros w Hw;
    rewrite !elem_of_app; tauto.
Qed.

Lemma blank_mentions_nothing text w :
  Text.blank text = true → w ∈ (mood_words ++ mode_words)%list → ¬ mentions w text.
Proof.
  intros Hblank Hw.
  assert (test (mood_words ++ mode_words)%list (Text.toLowerCase text) = false) as Hno.
  { apply test_blank; [|done]. by apply words_visible. }
  by eapply test_false in Hno.
Qed.

(** The classifier on the sample sentences of the specification. *)
Example detectMood_awesome : detectMood "That was AWESOME, thanks" = happy.
Proof. reflexivity. Qed.

Example detectMood_cant_wait : detectMood "I can't wait for friday" = excited.
Proof. reflexivity. Qed.

Example detectMode_debug : detectMode "help me debug this function" None = code.
Proof. reflexivity. Qed.

Example detectMode_sticky : detectMode "good morning" (Some research) = research.
Proof. reflexivity. Qed.

Example trim_inner_blanks : Text.trim "  a b  " = "a b".
Proof. reflexivity. Qed.

(** White space beyond ASCII is trimmed as well: a no-break space in front,
    a line separator and a byte order mark behind. *)
Example trim_no_break_space :
  Text.trim ([160%N] ++ " a b " ++ [8232%N; 65279%N]) = "a b".
Proof. reflexivity. Qed.

(** The Kelvin sign U+212A lowers to [k]. *)
Example detectMood_kelvin_sign :
  detectMood ("loo" ++ [8490%N] ++ "ing forward to it") = excited.
Proof. reflexivity. Qed.

(** The dotted capital I U+0130 lowers to [i] and a combining dot. *)
Example detectMode_dotted_capital_i : detectMode ("AP" ++ [304%N]) None = code.
Proof. reflexivity. Qed.

(** [substring] counts code units: a character above U+FFFF takes two, and a
    cut can fall between them. *)
Example take_counts_code_units :
  length "a🕐b" = 4 ∧ Text.take 2 "a🕐b" = "a" ++ [55357%N].
Proof. split; reflexivity. Qed.

(** C8: a text that mentions no keyword of either table, in particular an
    empty or white-space-only text, is classified [neutral], and its mode is
    the current mode that was passed in, or [friend] when none was. *)
Theorem detect_defaults (text : js_string) :
  Text.trim text = "" ∨ (∀ w, w ∈ (mood_words ++ mode_words)%list → ¬ mentions w text) →
  detectMood text = neutral ∧
  detectMode text None = friend ∧
  ∀ m, m ≠ "" → detectMode text (Some m) = m.
Proof.
  intros H.
  assert (∀ w, w ∈ (mood_words ++ mode_words)%list → ¬ mentions w text) as Hno.
  { destruct H as [Hblank%trim_empty_iff | H]; [|done].
    intros w. by apply blank_mentions_nothing. }
  split; [|split].
  - apply detectMood_no_word. intros w Hw. apply Hno, elem_of_app. by left.
  - rewrite detectMode_no_word; [done|].
    intros w Hw. apply Hno, elem_of_app. by right.
  - intros m Hm. rewrite detectMode_no_word.
    + simpl. by rewrite bool_decide_eq_false_2.
    + intros w Hw. apply Hno, elem_of_app. by right.
Qed.

Lemma detect_defaults_witness :
  (detectMood "   " = neutral ∧ detectMode "   " None = friend) ∧
  (detectMood "Good Morning" = neutral ∧
   detectMode "Good Morning" (Some "research") = "research").
Proof.
  split.
  - destruct (detect_defaults "   ") as (Hmood & Hmode & _); [by left | done].
  - destruct (detect_defaults "Good Morning") as (Hmood & _ & Hmode).
    + right. apply test_false. reflexivity.
    + split; [done|]. by apply Hmode.
Defined.

(** ** Generation adapter *)

Section GenerationFacts.
Context (generateContent : nat → js_string → Outcome).
Context (builtin_text : js_string → js_string).

Lemma after_retries_step k w :
  called (after_retries k (sleep 1000 (called w))) = called (after_retries (S k) w).
Proof.
  unfold called, after_retries, sleep; simpl.
  replace (calls w + S k) with (S (calls w + k)) by lia.
  f_equal; [lia | by rewrite <- app_assoc].
Qed.

Lemma after_retries_0 w : after_retries 0 w = w.
Proof.
  destruct w. unfold after_retries; simpl. f_equal; [lia | lia |].
  apply app_nil_r.
Qed.

Lemma spent_nonneg lat first k : (0 ≤ spent lat first k)%Z.
Proof.
  revert first. induction k as [|k IH]; intros first; simpl; [done|].
  specialize (IH (S first)). lia.
Qed.


(** What a run of the adapter does: [k] failed attempts that were retried,
    then a last attempt whose text or apology is returned. *)
Lemma generate_spec message mood' mode' history retries w :
  let prompt := build_prompt builtin_text message mood' mode' history in
  ∃ k r,
    generateAIResponse generateContent builtin_text
      message mood' mode' history retries w
    = (resolved r, called (after_retries k w)) ∧
    (Z.of_nat k ≤ Z.max 0 retries)%Z ∧
    (∀ i, i < k → ∃ st, generateContent (calls w + i) prompt = failed st ∧
                         st ≠ Some 400%Z ∧ st ≠ Some 403%Z) ∧
    (generateContent (calls w + k) prompt = generated r ∨
     ∃ st, generateContent (calls w + k) prompt = failed st ∧ r = apology st ∧
           (Z.of_nat k = Z.max 0 retries ∨ st = Some 400%Z ∨ st = Some 403%Z)).
Proof.
  intros prompt. subst prompt.
  funelim (generateAIResponse generateContent builtin_text
             message mood' mode' history retries w).
  - exists 0, text. rewrite after_retries_0, Nat.add_0_r.
    split; [done|]. split; [lia|]. split; [lia|]. by left.
  - match goal with
    | IH : ∃ k r, _ |- _ => destruct IH as (k & reply & Hrun & Hk & Hbefore & Hlast)
    end.
    match goal with
    | Hr : retryable _ _ |- _ => destruct Hr as (Hpos & H400 & H403)
    end.
    exists (S k), reply. rewrite Hrun, after_retries_step.
    split; [done|]. split; [lia|]. split.
    + intros [|i] Hi.
      * rewrite Nat.add_0_r. eexists. split; [eassumption | done].
      * destruct (Hbefore i) as (st & Hst & ?); [lia|].
        exists st. simpl in Hst. by rewrite <- Nat.add_succ_comm.
    + simpl in Hlast. rewrite <- Nat.add_succ_comm.
      destruct Hlast as [Hgen | (st & Hst & Hr & Hwhy)]; [by left|].
      right. exists st. split; [done|]. split; [done|].
      destruct Hwhy as [Hk' | Hwhy]; [left; lia | by right].
  - match goal with
    | Hn : ¬ retryable _ ?st |- _ =>
        exists 0, (apology st); rewrite after_retries_0, Nat.add_0_r;
        split; [done|]; split; [lia|]; split; [lia|];
        right; exists st; split; [done|]; split; [done|];
        unfold retryable in Hn;
        destruct (decide (st = Some 400%Z)); [tauto|];
        destruct (decide (st = Some 403%Z)); [tauto|];
        assert (¬ (0 < retries)%Z) by (intros ?; by apply Hn);
        left; simpl; lia
    end.
Qed.

End GenerationFacts.

(** ** Store *)

Lemma with_db_id w : with_db (db w) w = w.
Proof. by destruct w. Qed.

Lemma insert_or_ignore_session_has now sessionId title' d :
  is_Some (sessions (insert_or_ignore_session now sessionId title' d) !! sessionId).
Proof.
  unfold insert_or_ignore_session.
  destruct (sessions d !! sessionId) eqn:Hs; simpl.
  - by rewrite Hs.
  - by rewrite lookup_insert_eq.
Qed.

Lemma insert_or_ignore_session_conversations now sessionId title' d :
  conversations (insert_or_ignore_session now sessionId title' d) = conversations d ∧
  sqlite_sequence (insert_or_ignore_session now sessionId title' d) = sqlite_sequence d.
Proof. unfold insert_or_ignore_session. by destruct (sessions d !! sessionId). Qed.

Lemma update_session_timestamp_has now sessionId d :
  is_Some (sessions d !! sessionId) →
  is_Some (sessions (update_session_timestamp now sessionId d) !! sessionId).
Proof.
  intros [s Hs]. unfold update_session_timestamp; simpl.
  rewrite lookup_alter_eq, Hs. by eexists.
Qed.

(** Saving into an existing session succeeds whatever the pragma says. *)
Lemma saveMessage_ok sessionId r text mood' mode' w :
  is_Some (sessions (db w) !! sessionId) →
  ∃ w',
    saveMessage sessionId r text mood' mode' w
    = (resolved (sqlite_sequence (db w) + 1)%Z, w') ∧
    conversations (db w') =
      (conversations (db w) ++
       [{| id := (sqlite_sequence (db w) + 1)%Z; session_id := sessionId;
           role := r; content := text; mood := mood'; mode := mode';
           timestamp := CURRENT_TIMESTAMP w |}])%list ∧
    sqlite_sequence (db w') = (sqlite_sequence (db w) + 1)%Z ∧
    is_Some (sessions (db w') !! sessionId) ∧
    foreign_keys (db w') = foreign_keys (db w) ∧
    clock w' = clock w ∧ calls w' = calls w ∧ delays w' = delays w.
Proof.
  intros [s Hs]. unfold saveMessage, insert_conversation.
  rewrite Hs. rewrite bool_decide_eq_false_2 by done. rewrite andb_false_r.
  eexists. split; [reflexivity|]. simpl.
  repeat split; try done.
  rewrite lookup_alter_eq, Hs. by eexists.
Qed.

(** ** Chat handler *)

Section ChatFacts.
Context (generateContent : nat → js_string → Outcome).
Context (builtin_text : js_string → js_string).

Lemma trim_nonempty m : Text.trim m ≠ "" → m ≠ "".
Proof. by intros H ->. Qed.

(** A request with a visible message runs the whole pipeline: the user turn
    is stored, the adapter is run on the stored history, the assistant turn is
    stored, and the answer is 200. *)
Lemma chat_run req m w :
  req_message req = Some m → Text.trim m ≠ "" →
  let sessionId := default "default" (req_sessionId req) in
  let trimmed := Text.trim m in
  let detectedMood := detectMood trimmed in
  let detectedMode := detectMode trimmed (req_mode req) in
  ∃ history w2 response w3 w',
    calls w2 = calls w ∧ delays w2 = delays w ∧
    generateAIResponse generateContent builtin_text
      trimmed detectedMood detectedMode history 2 w2 = (resolved response, w3) ∧
    post_api_chat generateContent builtin_text req w
    = (json (chat_json response detectedMood detectedMode), w') ∧
    calls w' = calls w3 ∧ delays w' = delays w3 ∧
    conversations (db w') =
      (conversations (db w) ++
       [{| id := (sqlite_sequence (db w) + 1)%Z; session_id := sessionId;
           role := user; content := trimmed;
           mood := Some (Mood_to_string detectedMood);
           mode := Some detectedMode;
           timestamp := CURRENT_TIMESTAMP w |};
        {| id := (sqlite_sequence (db w) + 2)%Z; session_id := sessionId;
           role := assistant; content := response;
           mood := Some (Mood_to_string detectedMood);
           mode := Some detectedMode;
           timestamp := CURRENT_TIMESTAMP w3 |}])%list ∧
    foreign_keys (db w') = foreign_keys (db w).
Proof.
  intros Hm Ht sessionId trimmed detectedMood detectedMode.
  pose proof (trim_nonempty m Ht) as Hne.
  unfold post_api_chat, chat_try. rewrite Hm.
  rewrite (bool_decide_eq_false_2 (m = "")) by done.
  rewrite (bool_decide_eq_false_2 (Text.trim m = "")) by done.
  cbn [orb]. fold sessionId trimmed detectedMood detectedMode.
  unfold bind at 1. unfold createSession at 1.
  set (w1 := with_db _ w).
  assert (is_Some (sessions (db w1) !! sessionId)) as Hs1
    by apply insert_or_ignore_session_has.
  destruct (insert_or_ignore_session_conversations
              (CURRENT_TIMESTAMP w) sessionId (Text.take 50 trimmed ++ "...") (db w))
    as [Hc1 Hq1].
  unfold bind at 1.
  destruct (saveMessage_ok sessionId user trimmed
              (Some (Mood_to_string detectedMood)) (Some detectedMode) w1 Hs1)
    as (w2 & Hsave & Hc2 & Hq2 & Hs2 & Hf2 & Hk2 & Hn2 & Hd2).
  rewrite Hsave. unfold bind at 1. unfold getConversationHistory at 1.
  change (must_be_int 10) with true. cbv iota.
  set (history := reverse _).
  destruct (generate_spec generateContent builtin_text
              trimmed detectedMood detectedMode history 2 w2)
    as (k & response & Hrun & _).
  unfold bind at 1. rewrite Hrun.
  set (w3 := called (after_retries k w2)) in *.
  assert (is_Some (sessions (db w3) !! sessionId)) as Hs3 by done.
  destruct (saveMessage_ok sessionId assistant response
              (Some (Mood_to_string detectedMood)) (Some detectedMode) w3 Hs3)
    as (w4 & Hsave' & Hc4 & _ & _ & Hf4 & _ & Hn4 & Hd4).
  unfold bind. rewrite Hsave'. unfold ret.
  exists history, w2, response, w3, w4.
  split; [done|]. split; [done|]. split; [done|]. split; [done|].
  split; [done|]. split; [done|].
  change (db w3) with (db w2) in *. split.
  - rewrite Hc4, Hc2, Hq2.
    change (db w1) with (insert_or_ignore_session (CURRENT_TIMESTAMP w) sessionId
                           (Text.take 50 trimmed ++ "...") (db w)).
    rewrite Hc1, Hq1, <- app_assoc. simpl.
    change (CURRENT_TIMESTAMP w1) with (CURRENT_TIMESTAMP w).
    by replace (sqlite_sequence (db w) + 1 + 1)%Z
      with (sqlite_sequence (db w) + 2)%Z by lia.
  - rewrite Hf4, Hf2. subst w1. simpl.
    unfold insert_or_ignore_session. by destruct (sessions (db w) !! sessionId).
Qed.

(** The validation branch: nothing is read or written. *)
Lemma chat_blank req w :
  match req_message req with
  | None => True
  | Some m => Text.blank m = true
  end →
  post_api_chat generateContent builtin_text req w
  = ({| status := 400;
        body := chat_json didnt_catch neutral (or_friend (req_mode req)) |}, w).
Proof.
  unfold post_api_chat, chat_try.
  destruct (req_message req) as [m|]; [|done].
  intros Hblank%trim_empty_iff. rewrite Hblank.
  by rewrite (bool_decide_eq_true_2 ("" = "")), orb_true_r by done.
Qed.

End ChatFacts.

(** C1 (as the code has it): the request
    [{message: "I'm so excited about this!", sessionId: "s1"}] is answered 200
    with mood [happy], not [excited], because the first pattern already lists
    "excited"; a user turn and an assistant turn are stored under "s1". *)
Theorem chat_excited_message_answers_happy
    (generateContent : nat → js_string → Outcome) (builtin_text : js_string → js_string)
    (w : World) :
  ∃ response u a w',
    post_api_chat generateContent builtin_text excited_request w
    = ({| status := 200; body := chat_json response happy "friend" |}, w') ∧
    conversations (db w') = (conversations (db w) ++ [u; a])%list ∧
    session_id u = "s1" ∧ role u = user ∧ mood u = Some "happy" ∧
    session_id a = "s1" ∧ role a = assistant ∧ content a = response.
Proof.
  destruct (chat_run generateContent builtin_text excited_request
              "I'm so excited about this!" w eq_refl)
    as (history & w2 & response & w3 & w' & _ & _ & _ & Hpost & _ & _ & Hconv & _);
    [done|].
  eexists response, _, _, w'. split; [exact Hpost|]. split; [exact Hconv|]. done.
Qed.

(** The "excited" alternative of the fourth pattern can never decide: any
    text that mentions it is classified [happy] by the first pattern. *)
Lemma detectMood_excited_word_is_happy text :
  mentions "excited" text → detectMood text = happy.
Proof.
  intros H. unfold detectMood; cbv zeta.
  replace (test happy_words (Text.toLowerCase text)) with true; [done|].
  symmetry. apply test_true. exists "excited". split; [|done].
  unfold happy_words. by repeat first [apply list_elem_of_here | apply list_elem_of_further].
Qed.

(** C5: creating a session under an id that already exists changes nothing;
    in particular the stored session keeps its title. *)
Theorem createSession_existing_is_noop (sessionId title' : js_string) (w : World) (s : Session) :
  sessions (db w) !! sessionId = Some s →
  createSession sessionId title' w = (resolved (), w) ∧
  sessions (db (snd (createSession sessionId title' w))) !! sessionId = Some s.
Proof.
  intros Hs.
  assert (createSession sessionId title' w = (resolved (), w)) as Hrun.
  { unfold createSession, insert_or_ignore_session. rewrite Hs.
    by rewrite with_db_id. }
  by rewrite Hrun.
Qed.

Lemma createSession_existing_is_noop_witness :
  let w := snd (createSession "s1" "First title" fresh_world) in
  createSession "s1" "Another title" w = (resolved (), w) ∧
  title <$> sessions (db (snd (createSession "s1" "Another title" w))) !! "s1"
  = Some "First title".
Proof.
  intros w.
  destruct (createSession_existing_is_noop "s1" "Another title" w
              {| title := "First title"; created_at := 5; updated_at := 5 |})
    as [Hrun Htitle]; [reflexivity|].
  split; [exact Hrun|]. by rewrite Htitle.
Defined.

(** C7: a chat request whose message is missing, empty or white space only is
    answered 400 with the canned reply, mood [neutral] and the request's mode
    ([friend] when the request carries none); the store is left as it was, so
    no turn is written. *)
Theorem chat_blank_message_rejected
    (generateContent : nat → js_string → Outcome) (builtin_text : js_string → js_string)
    (req : ChatRequest) (w : World) :
  req_message req = None ∨ req_message req = Some "" ∨
    (∃ m, req_message req = Some m ∧ Text.trim m = "") →
  ∃ mode',
    post_api_chat generateContent builtin_text req w
    = ({| status := 400; body := chat_json didnt_catch neutral mode' |}, w) ∧
    (req_mode req = None → mode' = friend) ∧
    (∀ m, req_mode req = Some m → m ≠ "" → mode' = m).
Proof.
  intros H. exists (or_friend (req_mode req)). split; [|split].
  - apply chat_blank.
    destruct H as [-> | [-> | (m & -> & Hm)]]; [done | done |].
    by apply trim_empty_iff.
  - by intros ->.
  - intros m -> Hm. simpl. by rewrite bool_decide_eq_false_2.
Qed.

Lemma chat_blank_message_rejected_witness :
  post_api_chat (always_answering "hello") plain_builtin_text blank_request fresh_world
  = ({| status := 400; body := chat_json didnt_catch neutral "code" |}, fresh_world).
Proof.
  destruct (chat_blank_message_rejected (always_answering "hello")
              plain_builtin_text blank_request fresh_world)
    as (mode' & Hrun & _ & Hmode).
  - right. right. by exists "   ".
  - by rewrite Hrun, (Hmode "code").
Defined.

(** A message of no-break spaces is white space only. *)
Example chat_no_break_space_rejected :
  post_api_chat (always_answering "hello") plain_builtin_text
    {| req_message := Some [160%N; 160%N]; req_sessionId := Some "s1";
       req_mode := None |} fresh_world
  = ({| status := 400; body := chat_json didnt_catch neutral "friend" |},
     fresh_world).
Proof. reflexivity. Qed.

(** C10: when the chat handler answers 200, it has appended a user turn and
    an assistant turn that carry the same mood and mode labels, and the mood
    and mode of the HTTP answer are those labels. *)
Theorem chat_labels_agree
    (generateContent : nat → js_string → Outcome) (builtin_text : js_string → js_string)
    (req : ChatRequest) (w w' : World) (res : Response) :
  post_api_chat generateContent builtin_text req w = (res, w') →
  status res = 200%Z →
  ∃ u a response mood' mode',
    body res = chat_json response mood' mode' ∧
    conversations (db w') = (conversations (db w) ++ [u; a])%list ∧
    role u = user ∧ role a = assistant ∧ session_id a = session_id u ∧
    content a = response ∧
    mood u = Some (Mood_to_string mood') ∧ mode u = Some mode' ∧
    mood a = mood u ∧ mode a = mode u.
Proof.
  intros Hrun Hstatus.
  destruct (req_message req) as [m|] eqn:Hm.
  - destruct (decide (Text.trim m = "")) as [Hblank | Hvisible].
    + rewrite (chat_blank generateContent builtin_text req w) in Hrun.
      * injection Hrun as <- _. discriminate.
      * rewrite Hm. by apply trim_empty_iff.
    + destruct (chat_run generateContent builtin_text req m w Hm Hvisible)
        as (history & w2 & response & w3 & w4 & _ & _ & _ & Hpost & _ & _ & Hconv & _).
      rewrite Hpost in Hrun. injection Hrun as <- <-.
      eexists _, _, response, _, _. split; [reflexivity|].
      split; [exact Hconv|]. done.
  - rewrite (chat_blank generateContent builtin_text req w) in Hrun.
    + injection Hrun as <- _. discriminate.
    + by rewrite Hm.
Qed.

Lemma chat_labels_agree_witness :
  ∃ u a,
    conversations (db (snd (post_api_chat (always_answering "Glad to hear it!")
                              plain_builtin_text excited_request fresh_world)))
    = [u; a] ∧
    mood a = mood u ∧ mode a = mode u ∧
    mood u = Some "happy" ∧ mode u = Some "friend".
Proof.
  destruct (chat_labels_agree (always_answering "Glad to hear it!")
              plain_builtin_text excited_request fresh_world
              (snd (post_api_chat (always_answering "Glad to hear it!")
                      plain_builtin_text excited_request fresh_world))
              (fst (post_api_chat (always_answering "Glad to hear it!")
                      plain_builtin_text excited_request fresh_world)))
    as (u & a & response & mood' & mode' & Hbody & Hconv & _ & _ & _ & _
        & Hmood & Hmode & Hmood' & Hmode').
  - reflexivity.
  - reflexivity.
  - exists u, a. split; [exact Hconv|]. split; [done|]. split; [done|].
    vm_compute in Hbody. injection Hbody as _ <- <-. done.
Defined.

(** ** Retry policy *)



Lemma apology_cases st :
  apology st = rate_limited ∨ apology st = confused ∨ apology st = trouble_connecting.
Proof. unfold apology. repeat case_bool_decide; auto. Qed.

(** C6: the adapter always settles with a text and never rejects: the text of
    the last attempt when that attempt succeeded, and otherwise one of the
    three apologies, chosen by the status of the last error.  So when the
    provider fails every call, a chat request with a visible message is still
    answered 200 and the answer carries an apology. *)
Theorem generation_failure_absorbed
    (generateContent : nat → js_string → Outcome) (builtin_text : js_string → js_string) :
  (∀ message mood' mode' history retries w,
     ∃ k response w',
       generateAIResponse generateContent builtin_text
         message mood' mode' history retries w = (resolved response, w') ∧
       calls w' = S (calls w + k) ∧
       (generateContent (calls w + k)
          (build_prompt builtin_text message mood' mode' history)
        = generated response ∨
        ∃ st, generateContent (calls w + k)
                (build_prompt builtin_text message mood' mode' history)
              = failed st ∧
              response = apology st ∧
              (Z.of_nat k = Z.max 0 retries ∨ st = Some 400%Z ∨ st = Some 403%Z))) ∧
  ((∀ n prompt, ∃ st, generateContent n prompt = failed st) →
   ∀ req m w,
     req_message req = Some m → Text.trim m ≠ "" →
     ∃ response mood' mode' w',
       post_api_chat generateContent builtin_text req w
       = ({| status := 200; body := chat_json response mood' mode' |}, w') ∧
       (response = rate_limited ∨ response = confused ∨
        response = trouble_connecting)).
Proof.
  split.
  - intros message mood' mode' history retries w.
    destruct (generate_spec generateContent builtin_text
                message mood' mode' history retries w)
      as (k & r & Hrun & _ & _ & Hlast).
    exists k, r, (called (after_retries k w)). by split.
  - intros Hdown req m w Hm Hvisible.
    destruct (chat_run generateContent builtin_text req m w Hm Hvisible)
      as (history & w2 & response & w3 & w' & _ & _ & Hgen & Hpost & _).
    eexists response, _, _, w'. split; [exact Hpost|].
    destruct (generate_spec generateContent builtin_text (Text.trim m)
                (detectMood (Text.trim m))
                (detectMode (Text.trim m) (req_mode req)) history 2 w2)
      as (k & r & Hrun & _ & _ & Hlast).
    rewrite Hgen in Hrun. injection Hrun as -> _.
    destruct Hlast as [Hans | (st & _ & -> & _)].
    + destruct (Hdown (calls w2 + k)
                  (build_prompt builtin_text (Text.trim m)
                     (detectMood (Text.trim m))
                     (detectMode (Text.trim m) (req_mode req)) history))
        as [st Hst].
      congruence.
    + apply apology_cases.
Qed.

Lemma generation_failure_absorbed_witness :
  ∃ response mood' mode' w',
    post_api_chat (always_failing (Some 500%Z)) plain_builtin_text
      excited_request fresh_world
    = ({| status := 200; body := chat_json response mood' mode' |}, w') ∧
    (response = rate_limited ∨ response = confused ∨
     response = trouble_connecting).
Proof.
  apply (proj2 (generation_failure_absorbed (always_failing (Some 500%Z))
                  plain_builtin_text)
           (fun _ _ => ex_intro _ (Some 500%Z) eq_refl)
           excited_request "I'm so excited about this!" fresh_world);
    [reflexivity | done].
Defined.

(** ** Prompt lookup *)

(** The three servers at the mode "poet": the TypeScript ones read
    [undefined], the JavaScript one the friend template. *)
Lemma unknown_mode_reads_undefined mood' :
  getSystemPrompt "poet" mood' = undefined ∧
  ServerTs.getSystemPrompt "poet" mood' = undefined ∧
  ServerJs.getSystemPrompt "poet" mood'
  = str (friend_template "detail" (Mood_to_string mood')).
Proof. by destruct mood'. Qed.

Lemma get_unknown props key :
  Forall (fun kv => kv.1 ≠ key) props →
  get props key = if bool_decide (key ∈ Object_prototype) then inherited key else undefined.
Proof.
  intros H. unfold get.
  replace (own_property props key) with (@None js_string); [done|].
  induction H as [|[k v] props Hk _ IH]; simpl; [done|].
  by rewrite bool_decide_eq_false_2.
Qed.

Lemma not_Mode mode' :
  is_Mode mode' = false → mode' ≠ "friend" ∧ mode' ≠ "research" ∧ mode' ≠ "code".
Proof.
  unfold is_Mode, friend, research, code.
  rewrite !orb_false_iff, !bool_decide_eq_false. tauto.
Qed.

(** C9 (as the code has it): for every mood the template is a lookup keyed by
    mode, and each of [friend], [research] and [code] reads its own template.
    The fallback to the friend template exists in the JavaScript server only.
    The two TypeScript servers end in [return prompts[mode]]: for a mode
    outside the three they return no template, but [undefined], or the member
    that object literals inherit under that name. *)
Theorem getSystemPrompt_lookup (mood' : Mood) :
  getSystemPrompt "friend" mood'
    = str (friend_template "detail  " (Mood_to_string mood')) ∧
  getSystemPrompt "research" mood' = str research_template ∧
  getSystemPrompt "code" mood' = str (code_template " (React, Angular, Node, etc.)") ∧
  (∀ mode', is_Mode mode' = false →
     getSystemPrompt mode' mood' = ServerTs.getSystemPrompt mode' mood' ∧
     ServerTs.getSystemPrompt mode' mood'
     = if bool_decide (mode' ∈ Object_prototype) then inherited mode' else undefined) ∧
  (∀ mode', is_Mode mode' = false →
     ServerJs.getSystemPrompt mode' mood'
     = if bool_decide (mode' ∈ Object_prototype) then inherited mode'
       else str (friend_template "detail" (Mood_to_string mood'))) ∧
  ServerJs.getSystemPrompt "friend" mood'
    = str (friend_template "detail" (Mood_to_string mood')).
Proof.
  split; [done|]. split; [done|]. split; [done|]. split; [|split].
  - intros mode' (Hf & Hr & Hc)%not_Mode.
    unfold getSystemPrompt, ServerTs.getSystemPrompt.
    rewrite !get_unknown; [done | ..]; by repeat constructor.
  - intros mode' (Hf & Hr & Hc)%not_Mode.
    unfold ServerJs.getSystemPrompt, ServerJs.prompts.
    rewrite (get_unknown _ mode') by by repeat constructor.
    case_bool_decide; [done|]. simpl.
    by destruct mood'.
  - unfold ServerJs.getSystemPrompt. simpl. by destruct mood'.
Qed.

(** The request [{message: "hello", mode: "poet"}] on the newest server: the
    mode is kept as the current one, no template is found for it, and the
    prompt that goes to the provider starts with the text "undefined". *)
Example chat_unknown_mode_prompt :
  ∃ rest w',
    post_api_chat echoing plain_builtin_text
      {| req_message := Some "hello"; req_sessionId := Some "s1";
         req_mode := Some "poet" |} fresh_world
    = (json (chat_json ("undefined" ++ nl ++ nl ++ "Previous conversation:" ++ rest)
               neutral "poet"), w').
Proof. eexists _, _. vm_compute. reflexivity. Qed.

(** ** History *)

#[local] Instance index_le_flip_total : Total (flip index_le).
Proof. intros a b. unfold flip, index_le. lia. Qed.

#[local] Instance index_le_flip_trans : Transitive (flip index_le).
Proof. intros a b c. unfold flip, index_le. lia. Qed.

#[local] Instance older_flip_trans : Transitive (flip older).
Proof. intros a b c. unfold flip, older. lia. Qed.

#[local] Instance older_trans : Transitive older.
Proof. intros a b c. unfold older. lia. Qed.

(** Rows with distinct ids are strictly ordered by the index. *)
Lemma StronglySorted_strict l :
  StronglySorted (flip index_le) l → NoDup (id <$> l) →
  StronglySorted (flip older) l.
Proof.
  induction 1 as [|x l Hl IH Hx]; [constructor|].
  rewrite fmap_cons, NoDup_cons. intros [Hfresh Hdup].
  constructor; [auto|].
  rewrite Forall_forall in Hx |- *. intros y Hy.
  specialize (Hx y Hy).
  assert (id y ≠ id x).
  { intros Heq. apply Hfresh. rewrite <- Heq. by apply list_elem_of_fmap_2. }
  unfold flip, index_le, older in *. lia.
Qed.

Lemma turns_of_ids_distinct sessionId d :
  well_formed d → NoDup (id <$> turns_of sessionId d).
Proof.
  intros [Hdup _]. eapply sublist_NoDup; [exact Hdup|].
  apply fmap_sublist, sublist_filter.
Qed.

(** The newest-first scan of a session is strictly ordered. *)
Lemma scan_sorted sessionId d :
  well_formed d →
  StronglySorted (flip older) (merge_sort (flip index_le) (turns_of sessionId d)).
Proof.
  intros Hwf. apply StronglySorted_strict.
  - apply StronglySorted_merge_sort; apply _.
  - rewrite merge_sort_Permutation. by apply turns_of_ids_distinct.
Qed.

(** A limit the engine takes for an integer: the statement runs. *)
Lemma getConversationHistory_in_range sessionId limit w :
  (SMALLEST_INT64 < limit < LARGEST_INT64)%Z →
  getConversationHistory sessionId limit w
  = (resolved (reverse (select_history sessionId limit (db w))), w).
Proof.
  intros Hfits. unfold getConversationHistory, must_be_int.
  by rewrite bool_decide_eq_true_2.
Qed.

(** A limit the engine does not take for an integer: the promise rejects. *)
Lemma getConversationHistory_out_of_range sessionId limit w :
  ¬ (SMALLEST_INT64 < limit < LARGEST_INT64)%Z →
  getConversationHistory sessionId limit w = (rejected SQLITE_MISMATCH, w).
Proof.
  intros Hout. unfold getConversationHistory, must_be_int.
  by rewrite bool_decide_eq_false_2.
Qed.

(** The two ends of the limit, with two turns stored under "s1": the limit
    [2^63] is not taken for an integer and the promise rejects, so no history
    is returned at all; the limit [-1] is no limit, so both turns come back,
    more than the limit. *)
Example history_limit_extremes :
  getConversationHistory "s1" 9223372036854775808 sample_world
    = (rejected SQLITE_MISMATCH, sample_world) ∧
  ∃ history,
    getConversationHistory "s1" (-1) sample_world = (resolved history, sample_world) ∧
    length history = 2.
Proof. split; [reflexivity|]. eexists. split; reflexivity. Qed.

(** C4 as stated fails: it is not for every limit that a history of at most
    that many turns is returned.  At the limit [2^63] the promise rejects. *)
Lemma history_limit_out_of_range_counterexample :
  ¬ (∀ (sessionId : js_string) (limit : Z) (w : World),
       well_formed (db w) →
       ∃ history,
         getConversationHistory sessionId limit w = (resolved history, w) ∧
         (Z.of_nat (length history) ≤ limit)%Z).
Proof.
  intros H.
  assert (well_formed (db fresh_world)) as Hwf by (split; simpl; constructor).
  destruct (H "s1" 9223372036854775808%Z fresh_world Hwf) as (history & Hrun & _).
  discriminate Hrun.
Qed.

(** C4 (amended): for a limit [n] with [0 ≤ n < 2^63 - 1] the history of a
    session is returned and holds at most [n] turns, exactly [n] of them when
    the table holds that many for the session and all of them otherwise; they
    are turns of that session; they are its [n] most recent ones (every turn
    of the session that is left out is older than every turn returned); and
    they come oldest first, equal timestamps in id order, as the reverse of a
    newest-first scan. *)
Theorem history_most_recent_oldest_first (sessionId : js_string) (limit : Z) (w : World) :
  well_formed (db w) → (0 ≤ limit < LARGEST_INT64)%Z →
  ∃ history scan,
    getConversationHistory sessionId limit w = (resolved history, w) ∧
    history = reverse scan ∧
    StronglySorted (flip older) scan ∧
    StronglySorted older history ∧
    (Z.of_nat (length history) ≤ limit)%Z ∧
    length history
      = Z.to_nat limit `min`
        length (filter (fun m => session_id m = sessionId) (conversations (db w))) ∧
    (∀ m, m ∈ history → m ∈ conversations (db w) ∧ session_id m = sessionId) ∧
    (∀ m m', m ∈ conversations (db w) → session_id m = sessionId →
             m ∉ history → m' ∈ history → older m m').
Proof.
  intros Hwf Hlimit.
  change (filter (fun m => session_id m = sessionId) (conversations (db w)))
    with (turns_of sessionId (db w)).
  pose proof (scan_sorted sessionId (db w) Hwf) as Hsorted.
  set (full := merge_sort (flip index_le) (turns_of sessionId (db w))) in *.
  assert (full ≡ₚ turns_of sessionId (db w)) as Hperm
    by apply merge_sort_Permutation.
  set (n := Z.to_nat limit).
  assert (select_history sessionId limit (db w) = take n full) as Hselect.
  { unfold select_history, sql_limit.
    by replace (limit <? 0)%Z with false by lia. }
  exists (reverse (take n full)), (take n full).
  rewrite <- (take_drop n full) in Hsorted.
  assert (StronglySorted (flip older) (take n full)) as Hscan
    by (by eapply StronglySorted_app_1_l).
  split.
  { rewrite getConversationHistory_in_range, Hselect; [done|].
    unfold SMALLEST_INT64. lia. }
  split; [done|]. split; [done|]. split; [|split; [|split; [|split]]].
  - apply (Sorted_StronglySorted _).
    apply (Sorted_reverse (flip older)).
    by apply StronglySorted_Sorted.
  - rewrite length_reverse, length_take. lia.
  - rewrite length_reverse, length_take. by rewrite Hperm.
  - intros m Hm. rewrite elem_of_reverse in Hm.
    apply subseteq_take in Hm. rewrite Hperm in Hm.
    apply list_elem_of_filter in Hm. tauto.
  - intros m m' Hm Hsession Hout Hin.
    rewrite elem_of_reverse in Hout, Hin.
    assert (m ∈ full) as Hfull.
    { rewrite Hperm. by apply list_elem_of_filter. }
    rewrite <- (take_drop n full), elem_of_app in Hfull.
    destruct Hfull as [? | Hrest]; [done|].
    exact (StronglySorted_app_1_elem_of _ _ _ _ _ Hsorted Hin Hrest).
Qed.

Lemma history_most_recent_oldest_first_witness :
  ∃ history scan,
    getConversationHistory "s1" 1 sample_world = (resolved history, sample_world) ∧
    history = reverse scan ∧
    StronglySorted (flip older) scan ∧
    StronglySorted older history ∧
    (Z.of_nat (length history) ≤ 1)%Z ∧
    length history
      = Z.to_nat 1 `min`
        length (filter (fun m => session_id m = "s1")
                  (conversations (db sample_world))) ∧
    (∀ m, m ∈ history → m ∈ conversations (db sample_world) ∧ session_id m = "s1") ∧
    (∀ m m', m ∈ conversations (db sample_world) → session_id m = "s1" →
             m ∉ history → m' ∈ history → older m m').
Proof.
  apply (history_most_recent_oldest_first "s1" 1 sample_world).
  - split.
    + apply (bool_decide_unpack _). vm_compute. exact I.
    + apply (bool_decide_unpack _). vm_compute. exact I.
  - unfold LARGEST_INT64. lia.
Defined.

(** A negative limit is no limit: the whole session comes back. *)
Lemma history_negative_limit sessionId limit w :
  (SMALLEST_INT64 < limit < 0)%Z →
  ∃ history,
    getConversationHistory sessionId limit w = (resolved history, w) ∧
    length history
    = length (filter (fun m => session_id m = sessionId) (conversations (db w))).
Proof.
  intros Hneg. eexists. split.
  { apply getConversationHistory_in_range. unfold LARGEST_INT64. lia. }
  unfold select_history, sql_limit.
  replace (limit <? 0)%Z with true by lia.
  by rewrite length_reverse, merge_sort_Permutation.
Qed.

(** *** The invariant is kept by every statement *)

Lemma well_formed_open : well_formed open_database.
Proof. split; simpl; constructor. Qed.

Lemma well_formed_insert_or_ignore_session now sessionId title' d :
  well_formed d → well_formed (insert_or_ignore_session now sessionId title' d).
Proof. unfold insert_or_ignore_session. by destruct (sessions d !! sessionId). Qed.

Lemma well_formed_update_session_title now sessionId title' d :
  well_formed d → well_formed (update_session_title now sessionId title' d).
Proof. done. Qed.

Lemma well_formed_update_session_timestamp now sessionId d :
  well_formed d → well_formed (update_session_timestamp now sessionId d).
Proof. done. Qed.

Lemma well_formed_delete_from_sessions sessionId d :
  well_formed d → well_formed (delete_from_sessions sessionId d).
Proof.
  intros [Hdup Hmax]. unfold well_formed, delete_from_sessions; simpl.
  destruct (foreign_keys d && _); [|done]. split.
  - eapply sublist_NoDup; [exact Hdup|]. apply fmap_sublist, sublist_filter.
  - rewrite Forall_forall in Hmax |- *.
    intros m [_ Hm]%list_elem_of_filter. by apply Hmax.
Qed.

Lemma well_formed_insert_conversation now sessionId r text mood' mode' d lastID d' :
  well_formed d →
  insert_conversation now sessionId r text mood' mode' d = inr (lastID, d') →
  well_formed d'.
Proof.
  intros [Hdup Hmax]. unfold insert_conversation.
  destruct (foreign_keys d && _); [done|].
  intros [= <- <-]. unfold well_formed; simpl. split.
  - rewrite fmap_app. apply NoDup_app. split; [done|]. split.
    + intros i (m & -> & Hm)%list_elem_of_fmap_1. simpl.
      rewrite Forall_forall in Hmax. specialize (Hmax m Hm).
      intros ?%list_elem_of_singleton. lia.
    + apply NoDup_singleton.
  - apply Forall_app. split.
    + eapply Forall_impl; [exact Hmax|]. simpl. intros m ?. lia.
    + by repeat constructor.
Qed.

(** ** Deleting a session *)

(** With enforcement off, as on the server's connection, deleting a session
    leaves every turn in place. *)
Lemma delete_keeps_turns sessionId w :
  foreign_keys (db w) = false →
  conversations (db (snd (delete_api_session sessionId w))) = conversations (db w) ∧
  fst (get_api_history sessionId (snd (delete_api_session sessionId w)))
  = fst (get_api_history sessionId w).
Proof.
  intros Hoff.
  assert (conversations (db (snd (delete_api_session sessionId w)))
          = conversations (db w)) as Hsame.
  { unfold delete_api_session, deleteSession, delete_from_sessions; simpl.
    by rewrite Hoff. }
  split; [done|].
  unfold get_api_history, getConversationHistory, select_history, turns_of.
  change (must_be_int 50) with true. cbv iota.
  by rewrite Hsame.
Qed.

(** With enforcement on, deleting an existing session empties its history. *)
Lemma delete_cascades_when_enforced sessionId w :
  foreign_keys (db w) = true →
  is_Some (sessions (db w) !! sessionId) →
  fst (get_api_history sessionId (snd (delete_api_session sessionId w)))
  = json (history_json []).
Proof.
  intros Hon Hs.
  unfold delete_api_session, deleteSession, delete_from_sessions; simpl.
  unfold get_api_history, getConversationHistory, select_history, turns_of.
  change (must_be_int 50) with true. cbv iota. simpl.
  rewrite Hon, bool_decide_eq_true_2 by done. simpl.
  rewrite list_filter_filter.
  replace (filter _ (conversations (db w))) with (@nil Message).
  - by destruct (50 <? 0)%Z.
  - symmetry. induction (conversations (db w)) as [|m l IH]; [done|].
    rewrite filter_cons_False; [done | tauto].
Qed.

(** The chat handler and the session routes never touch the pragma, so it
    stays as [open_database] left it. *)
Lemma pragma_untouched
    (generateContent : nat → js_string → Outcome) (builtin_text : js_string → js_string)
    req sessionId title' w :
  foreign_keys (db (snd (post_api_chat generateContent builtin_text req w)))
    = foreign_keys (db w) ∧
  foreign_keys (db (snd (delete_api_session sessionId w))) = foreign_keys (db w) ∧
  foreign_keys (db (snd (patch_api_session sessionId title' w))) = foreign_keys (db w) ∧
  foreign_keys (db (snd (get_api_history sessionId w))) = foreign_keys (db w).
Proof.
  split; [|done].
  destruct (req_message req) as [m|] eqn:Hm.
  - destruct (decide (Text.trim m = "")) as [Hblank | Hvisible].
    + rewrite chat_blank; [done|]. rewrite Hm. by apply trim_empty_iff.
    + destruct (chat_run generateContent builtin_text req m w Hm Hvisible)
        as (? & ? & ? & ? & w' & _ & _ & _ & Hpost & _ & _ & _ & Hfk).
      by rewrite Hpost.
  - rewrite chat_blank; [done|]. by rewrite Hm.
Qed.

(** C2 (as the code has it): after a chat under "s1", [DELETE /api/sessions/s1]
    answers 200 and removes the session row, yet [GET /api/history/s1] still
    returns both turns: the connection never enables foreign keys, so the
    declared cascade does not run. *)
Theorem delete_session_leaves_history :
  let '(deleted, w) := delete_api_session "s1" sample_world in
  deleted = json success_json ∧
  sessions (db w) !! "s1" = None ∧
  ∃ u a,
    fst (get_api_history "s1" w) = json (history_json [u; a]) ∧
    role u = user ∧ role a = assistant ∧
    session_id u = "s1" ∧ session_id a = "s1".
Proof.
  split; [reflexivity|]. split; [reflexivity|].
  eexists _, _. split; [reflexivity|]. done.
Qed.

(** ** The middleware in front of the routes *)

Lemma require_api_key_spec (key : option js_string) handler w :
  require_api_key key handler w
  = if bool_decide (key = None ∨ key = Some "")
    then ({| status := 503;
             body := error_json "Service temporarily unavailable - configuration issue" |}, w)
    else handler w.
Proof.
  unfold require_api_key. destruct key as [k|].
  - destruct (decide (k = "")) as [->|Hk].
    + by rewrite !bool_decide_eq_true_2 by auto.
    + rewrite !bool_decide_eq_false_2; [done | | done].
      intros [? | [= ?]]; done.
  - by rewrite bool_decide_eq_true_2 by auto.
Qed.

(** The same three requests on a connection that enforces foreign keys. *)
Example delete_cascades_example :
  let w := snd (post_api_chat (always_answering "Glad to hear it!")
                  plain_builtin_text excited_request enforcing_world) in
  length (conversations (db w)) = 2 ∧
  fst (get_api_history "s1" (snd (delete_api_session "s1" w)))
  = json (history_json []).
Proof. split; reflexivity. Qed.

(** ** The invariant is kept by every handler *)

Lemma preserves_ret {A} P (a : A) : preserves P (ret a).
Proof. intros w out w' HP [= _ <-]. done. Qed.

Lemma preserves_bind {A B} P (m : Async A) (k : A → Async B) :
  preserves P m → (∀ a, preserves P (k a)) → preserves P (bind m k).
Proof.
  intros Hm Hk w out w' HP. unfold bind.
  destruct (m w) as [[a | e] w1] eqn:Hrun.
  - intros Hrest. eapply Hk; [|exact Hrest]. eapply Hm; eauto.
  - intros [= _ <-]. eapply Hm; eauto.
Qed.

Lemma createSession_well_formed sessionId title' :
  preserves stored_well (createSession sessionId title').
Proof.
  intros w out w' HP [= _ <-].
  by apply well_formed_insert_or_ignore_session.
Qed.

Lemma deleteSession_well_formed sessionId :
  preserves stored_well (deleteSession sessionId).
Proof.
  intros w out w' HP [= _ <-].
  by apply well_formed_delete_from_sessions.
Qed.

Lemma saveMessage_well_formed sessionId r text mood' mode' :
  preserves stored_well (saveMessage sessionId r text mood' mode').
Proof.
  intros w out w' HP. unfold saveMessage.
  destruct (insert_conversation _ _ _ _ _ _ _) as [e | [lastID d]] eqn:Hins.
  - by intros [= _ <-].
  - intros [= _ <-].
    apply well_formed_update_session_timestamp.
    by eapply well_formed_insert_conversation.
Qed.

Lemma getConversationHistory_well_formed sessionId limit :
  preserves stored_well (getConversationHistory sessionId limit).
Proof.
  intros w out w' HP. unfold getConversationHistory.
  destruct (must_be_int limit); by intros [= _ <-].
Qed.

Lemma generateAIResponse_well_formed
    generateContent builtin_text message mood' mode' history retries :
  preserves stored_well
    (generateAIResponse generateContent builtin_text
       message mood' mode' history retries).
Proof.
  intros w out w' HP Hrun.
  destruct (generate_spec generateContent builtin_text
              message mood' mode' history retries w) as (k & r & Hspec & _).
  rewrite Hspec in Hrun. by injection Hrun as _ <-.
Qed.

Lemma post_api_chat_well_formed generateContent builtin_text req w :
  well_formed (db w) →
  well_formed (db (snd (post_api_chat generateContent builtin_text req w))).
Proof.
  intros HP.
  assert (preserves stored_well (chat_try generateContent builtin_text req)) as Hkeeps.
  { unfold chat_try. destruct (req_message req) as [m|]; [|apply preserves_ret].
    destruct (_ || _); [apply preserves_ret|].
    apply preserves_bind; [apply createSession_well_formed | intros _].
    apply preserves_bind; [apply saveMessage_well_formed | intros _].
    apply preserves_bind; [apply getConversationHistory_well_formed | intros history].
    apply preserves_bind; [apply generateAIResponse_well_formed | intros response].
    apply preserves_bind; [apply saveMessage_well_formed | intros _].
    apply preserves_ret. }
  unfold post_api_chat.
  destruct (chat_try generateContent builtin_text req w) as [[res | e] w'] eqn:Hrun;
    simpl; by eapply Hkeeps.
Qed.

Lemma delete_api_session_well_formed sessionId w :
  well_formed (db w) → well_formed (db (snd (delete_api_session sessionId w))).
Proof. intros HP. by apply well_formed_delete_from_sessions. Qed.

(** * More of the code *)

(** ** Classifier: matching and priority *)

Lemma test_iff words text :
  test words (Text.toLowerCase text) = true ↔ mentions_any words text.
Proof. apply test_true. Qed.

Lemma test_not words text :
  test words (Text.toLowerCase text) = false ↔ ¬ mentions_any words text.
Proof.
  rewrite <- test_iff. by destruct (test words (Text.toLowerCase text)).
Qed.

Lemma mentions_inside pre word post :
  mentions (Text.toLowerCase word) (pre ++ word ++ post).
Proof.
  unfold mentions. rewrite !toLowerCase_app.
  by exists (Text.toLowerCase pre), (Text.toLowerCase post).
Qed.

(** X1: a happy keyword decides whatever surrounds it and however it is
    cased. *)
Theorem detectMood_happy_word (pre word post : js_string) :
  Text.toLowerCase word ∈ happy_words →
  detectMood (pre ++ word ++ post) = happy.
Proof.
  intros Hword. unfold detectMood; cbv zeta.
  replace (test happy_words _) with true; [done|].
  symmetry. apply test_iff. exists (Text.toLowerCase word).
  split; [done | apply mentions_inside].
Qed.

Lemma detectMood_happy_word_witness :
  detectMood ("That was " ++ "AweSome" ++ ", thanks but I am tired") = happy.
Proof.
  apply (detectMood_happy_word "That was " "AweSome" ", thanks but I am tired").
  apply (bool_decide_unpack _). vm_compute. exact I.
Defined.

(** X2: the mood tables are tried in the order happy, sad, stressed, excited
    and the first table with a keyword in the text decides. *)
Theorem detectMood_first_table_wins (text : js_string) :
  (mentions_any happy_words text → detectMood text = happy) ∧
  (¬ mentions_any happy_words text → mentions_any sad_words text →
   detectMood text = sad) ∧
  (¬ mentions_any happy_words text → ¬ mentions_any sad_words text →
   mentions_any stressed_words text → detectMood text = stressed) ∧
  (¬ mentions_any happy_words text → ¬ mentions_any sad_words text →
   ¬ mentions_any stressed_words text → mentions_any excited_words text →
   detectMood text = excited) ∧
  (¬ mentions_any happy_words text → ¬ mentions_any sad_words text →
   ¬ mentions_any stressed_words text → ¬ mentions_any excited_words text →
   detectMood text = neutral).
Proof.
  unfold detectMood; cbv zeta.
  repeat split; intros;
    repeat match goal with
      | H : mentions_any _ _ |- _ => apply test_iff in H; rewrite H
      | H : ¬ mentions_any _ _ |- _ => apply test_not in H; rewrite H
      end; done.
Qed.

(** X3: a code keyword overrides the current mode; a research keyword does so
    when no code keyword is present; otherwise the current mode stays. *)
Theorem detectMode_first_table_wins (text : js_string) (currentMode : option js_string) :
  (mentions_any code_words text → detectMode text currentMode = code) ∧
  (¬ mentions_any code_words text → mentions_any research_words text →
   detectMode text currentMode = research) ∧
  (¬ mentions_any code_words text → ¬ mentions_any research_words text →
   detectMode text currentMode = or_friend currentMode).
Proof.
  unfold detectMode; cbv zeta.
  repeat split; intros;
    repeat match goal with
      | H : mentions_any _ _ |- _ => apply test_iff in H; rewrite H
      | H : ¬ mentions_any _ _ |- _ => apply test_not in H; rewrite H
      end; done.
Qed.

(** X4: given no current mode or one of the three modes, the detected mode is
    one of the three modes. *)
Theorem detectMode_is_Mode (text : js_string) (currentMode : option js_string) :
  match currentMode with
  | None => True
  | Some m => is_Mode m = true
  end →
  is_Mode (detectMode text currentMode) = true.
Proof.
  intros Hcur. unfold detectMode; cbv zeta.
  destruct (test code_words _); [done|].
  destruct (test research_words _); [done|].
  destruct currentMode as [m|]; [|done]. simpl.
  case_bool_decide as Hm; [done | exact Hcur].
Qed.

Lemma detectMode_is_Mode_witness :
  is_Mode (detectMode "tell me a joke" (Some "research")) = true.
Proof. by apply (detectMode_is_Mode "tell me a joke" (Some "research")). Defined.

Lemma test_app words words' s :
  test (words ++ words') s = test words s || test words' s.
Proof. unfold test. apply existsb_app. Qed.

Lemma occurs_prefix k k' s : Text.occurs (k ++ k') s → Text.occurs k s.
Proof.
  intros (pre & post & ->). exists pre, (k' ++ post).
  by rewrite <- app_assoc.
Qed.

(** X5: the first server and the newest one detect the same mode unless the
    text mentions react, angular or typescript, which only the newest server
    reads as code. *)
Theorem detectMode_versions (text : js_string) (currentMode : option js_string) :
  (¬ mentions_any framework_words text →
   detectMode text currentMode = OldServer.detectMode text currentMode) ∧
  (mentions_any framework_words text → detectMode text currentMode = code).
Proof.
  assert (test research_words (Text.toLowerCase text)
          = test OldServer.research_words (Text.toLowerCase text)) as Hresearch.
  { change research_words with (OldServer.research_words ++ ["researching"])%list.
    rewrite test_app.
    destruct (test OldServer.research_words (Text.toLowerCase text)) eqn:Hold;
      [done|]. rewrite orb_false_l.
    apply test_not. intros (w & ->%list_elem_of_singleton & Hw).
    apply test_not in Hold. apply Hold. exists "research".
    split; [by repeat constructor|].
    by apply (occurs_prefix "research" "ing"). }
  assert (test code_words (Text.toLowerCase text)
          = test OldServer.code_words (Text.toLowerCase text)
            || test framework_words (Text.toLowerCase text)) as Hcode.
  { change code_words with (OldServer.code_words ++ framework_words)%list.
    apply test_app. }
  unfold detectMode, OldServer.detectMode; cbv zeta.
  rewrite Hcode, Hresearch. split.
  - intros Hnone%test_not. by rewrite Hnone, orb_false_r.
  - intros Hsome%test_iff. by rewrite Hsome, orb_true_r.
Qed.

(** ** Adapter: when it answers and when it gives up *)

(** X6: when the first [j] attempts fail with a status other than 400 and 403,
    [j] is within the budget and the next attempt succeeds, the adapter returns
    the provider's text after exactly [j] retries. *)
Theorem generate_succeeds_after_retries
    (generateContent : nat → js_string → Outcome) (builtin_text : js_string → js_string)
    (message : js_string) (mood' : Mood) (mode' : js_string) (history : list Message)
    (retries : Z) (w : World) (j : nat) (text : js_string) :
  (Z.of_nat j ≤ retries)%Z →
  (∀ i, i < j →
     ∃ st, generateContent (calls w + i)
             (build_prompt builtin_text message mood' mode' history) = failed st ∧
           st ≠ Some 400%Z ∧ st ≠ Some 403%Z) →
  generateContent (calls w + j)
    (build_prompt builtin_text message mood' mode' history) = generated text →
  generateAIResponse generateContent builtin_text
    message mood' mode' history retries w
  = (resolved text, called (after_retries j w)).
Proof.
  intros Hbudget Hfail Hok.
  destruct (generate_spec generateContent builtin_text
              message mood' mode' history retries w)
    as (k & r & Hrun & Hk & Hbefore & Hlast).
  assert (k = j) as ->.
  { destruct (Nat.lt_trichotomy k j) as [Hlt | [-> | Hgt]]; [|done|].
    - destruct (Hfail k Hlt) as (st & Hst & H400 & H403).
      destruct Hlast as [Hgen | (st' & Hst' & _ & Hwhy)]; [congruence|].
      rewrite Hst in Hst'. injection Hst' as <-.
      destruct Hwhy as [? | [? | ?]]; [lia | done | done].
    - destruct (Hbefore j Hgt) as (st & Hst & _). congruence. }
  rewrite Hrun.
  destruct Hlast as [Hgen | (st & Hst & _)]; congruence.
Qed.

Lemma generate_succeeds_after_retries_witness :
  generateAIResponse (failing_then_answering 2 (Some 503%Z) "Here I am")
    plain_builtin_text "hi" neutral "friend" [] 2 fresh_world
  = (resolved "Here I am", called (after_retries 2 fresh_world)).
Proof.
  apply (generate_succeeds_after_retries
           (failing_then_answering 2 (Some 503%Z) "Here I am")
           plain_builtin_text "hi" neutral "friend" [] 2 fresh_world 2 "Here I am").
  - lia.
  - intros i Hi. exists (Some 503%Z).
    destruct i as [|[|i]]; [done | done | lia].
  - reflexivity.
Defined.

(** X7: when every attempt fails with the same status, the adapter gives up
    with the apology for that status: at once for 400 and 403, after using up
    the whole budget for any other status. *)
Theorem generate_gives_up
    (generateContent : nat → js_string → Outcome) (builtin_text : js_string → js_string)
    (message : js_string) (mood' : Mood) (mode' : js_string) (history : list Message)
    (retries : Z) (w : World) (st : option Z) :
  (∀ i, generateContent (calls w + i)
          (build_prompt builtin_text message mood' mode' history) = failed st) →
  generateAIResponse generateContent builtin_text
    message mood' mode' history retries w
  = (resolved (apology st),
     called (after_retries
               (if bool_decide (st = Some 400%Z ∨ st = Some 403%Z) then 0
                else Z.to_nat retries) w)).
Proof.
  intros Hdown.
  destruct (generate_spec generateContent builtin_text
              message mood' mode' history retries w)
    as (k & r & Hrun & Hk & Hbefore & Hlast).
  rewrite Hrun.
  destruct Hlast as [Hgen | (st' & Hst' & -> & Hwhy)]; [by rewrite Hdown in Hgen|].
  rewrite Hdown in Hst'. injection Hst' as <-.
  case_bool_decide as Hst.
  - destruct k as [|k]; [done|].
    destruct (Hbefore 0) as (st' & Hst' & H400 & H403); [lia|].
    rewrite Hdown in Hst'. injection Hst' as <-. tauto.
  - destruct Hwhy as [Hmax | Hwhy]; [|tauto].
    by replace k with (Z.to_nat retries) by lia.
Qed.

Lemma generate_gives_up_witness :
  generateAIResponse (always_failing (Some 429%Z)) plain_builtin_text
    "hi" neutral "friend" [] 2 fresh_world
  = (resolved rate_limited, called (after_retries 2 fresh_world)).
Proof.
  by apply (generate_gives_up (always_failing (Some 429%Z)) plain_builtin_text
              "hi" neutral "friend" [] 2 fresh_world (Some 429%Z)).
Defined.

(** X8: the prompt is the system prompt, the heading "Previous conversation:",
    one line for each of the last six turns of the history (for all of them
    when there are fewer), oldest first and each after its speaker's name,
    then the user's line and the cue for the answer.  Turns before the last
    six do not reach the provider. *)
Theorem build_prompt_last_six
    (builtin_text : js_string → js_string)
    (message : js_string) (mood' : Mood) (mode' : js_string)
    (history : list Message) :
  ∃ earlier recent,
    history = (earlier ++ recent)%list ∧
    length recent = 6 `min` length history ∧
    build_prompt builtin_text message mood' mode' history
    = interpolate builtin_text (getSystemPrompt mode' mood') ++ nl ++ nl ++
      "Previous conversation:" ++ nl ++
      join nl
        ((fun m => match role m with
                   | user => "User"
                   | assistant => "D.R.O.S.S"
                   end ++ ": " ++ content m) <$> recent) ++ nl ++ nl ++
      "User (" ++ Mood_to_string mood' ++ "): " ++ message ++ nl ++ nl ++
      "D.R.O.S.S:" ∧
    build_prompt builtin_text message mood' mode' history
    = build_prompt builtin_text message mood' mode' recent.
Proof.
  exists (take (length history - 6) history), (drop (length history - 6) history).
  split; [by rewrite take_drop|].
  split; [rewrite length_drop; lia|].
  split; [reflexivity|].
  unfold build_prompt, slice_last.
  rewrite length_drop.
  by replace (length history - (length history - 6) - 6)%nat with 0%nat by lia.
Qed.

(** Of seven turns the first is left out of the prompt. *)
Example build_prompt_seven_turns :
  build_prompt plain_builtin_text "hi" neutral "poet"
    ([sample_turn 1 user "long ago"; sample_turn 2 assistant "one";
      sample_turn 3 user "two"; sample_turn 4 assistant "three";
      sample_turn 5 user "four"; sample_turn 6 assistant "five";
      sample_turn 7 user "six"])
  = "undefined" ++ nl ++ nl ++
    "Previous conversation:" ++ nl ++
    "D.R.O.S.S: one" ++ nl ++ "User: two" ++ nl ++ "D.R.O.S.S: three" ++ nl ++
    "User: four" ++ nl ++ "D.R.O.S.S: five" ++ nl ++ "User: six" ++ nl ++ nl ++
    "User (neutral): hi" ++ nl ++ nl ++ "D.R.O.S.S:".
Proof. reflexivity. Qed.

(** ** Trimming *)

Lemma trimStart_split s :
  ∃ pre, Text.blank pre = true ∧ s = pre ++ Text.trimStart s.
Proof.
  induction s as [|c s (pre & Hpre & Hs)]; simpl.
  - by exists "".
  - destruct (Text.is_space c) eqn:Hc.
    + exists ((c :: pre)). split; [simpl; by rewrite Hc|].
      simpl in Hs |- *. congruence.
    + by exists "".
Qed.

Lemma trimEnd_split s :
  ∃ post, Text.blank post = true ∧ s = Text.trimEnd s ++ post.
Proof.
  induction s as [|c s (post & Hpost & Hs)]; simpl.
  - by exists "".
  - destruct (Text.trimEnd s) as [|c' r'] eqn:Hend.
    + destruct (Text.is_space c) eqn:Hc.
      * exists ((c :: s)). split; [|done]. simpl. rewrite Hc. simpl.
        by apply trimEnd_empty.
      * exists post. split; [done|]. simpl in Hs |- *. congruence.
    + exists post. split; [done|]. simpl in Hs |- *. congruence.
Qed.

Lemma trimEnd_idemp s : Text.trimEnd (Text.trimEnd s) = Text.trimEnd s.
Proof.
  induction s as [|c s IH]; simpl; [done|].
  destruct (Text.trimEnd s) as [|c' r'] eqn:Hend.
  - destruct (Text.is_space c) eqn:Hc; simpl; [done|]. by rewrite Hc.
  - simpl. simpl in IH. by rewrite IH.
Qed.

Lemma trimStart_visible s :
  Text.trimStart s = "" ∨
  ∃ c r, Text.trimStart s = (c :: r) ∧ Text.is_space c = false.
Proof.
  induction s as [|c s IH]; simpl; [by left|].
  destruct (Text.is_space c) eqn:Hc; [done|]. right. by exists c, s.
Qed.

Lemma trimEnd_keeps_head c r :
  Text.is_space c = false → ∃ r', Text.trimEnd ((c :: r)) = (c :: r').
Proof.
  intros Hc. simpl. destruct (Text.trimEnd r); [|by eexists].
  rewrite Hc. by eexists.
Qed.

Lemma trim_idemp s : Text.trim (Text.trim s) = Text.trim s.
Proof.
  unfold Text.trim.
  destruct (trimStart_visible s) as [-> | (c & r & -> & Hc)]; [done|].
  destruct (trimEnd_keeps_head c r Hc) as [r' Hr'].
  rewrite <- (trimEnd_idemp ((c :: r))) at 2. rewrite Hr'.
  simpl Text.trimStart. by rewrite Hc.
Qed.

Lemma trim_split s :
  ∃ pre post,
    Text.blank pre = true ∧ Text.blank post = true ∧
    s = pre ++ Text.trim s ++ post.
Proof.
  destruct (trimStart_split s) as (pre & Hpre & Hs).
  destruct (trimEnd_split (Text.trimStart s)) as (post & Hpost & Ht).
  exists pre, post. split; [done|]. split; [done|].
  unfold Text.trim. by rewrite <- Ht.
Qed.

(** ** The chat pipeline, step by step *)

Lemma saveMessage_stored sessionId r text mood' mode' w :
  is_Some (sessions (db w) !! sessionId) →
  saveMessage sessionId r text mood' mode' w
  = (resolved (sqlite_sequence (db w) + 1)%Z,
     with_db (stored_turn (CURRENT_TIMESTAMP w) sessionId r text mood' mode' (db w)) w).
Proof.
  intros [s Hs]. unfold saveMessage, insert_conversation.
  rewrite Hs. rewrite bool_decide_eq_false_2 by done. by rewrite andb_false_r.
Qed.

Lemma stored_turn_session now sessionId r text mood' mode' d :
  is_Some (sessions d !! sessionId) →
  is_Some (sessions (stored_turn now sessionId r text mood' mode' d) !! sessionId).
Proof. intros Hs. by apply update_session_timestamp_has. Qed.

Section Pipeline.
Context (generateContent : nat → js_string → Outcome).
Context (builtin_text : js_string → js_string).

(** The worlds a chat request goes through, written out. *)
Lemma chat_outcome req m w :
  req_message req = Some m → Text.trim m ≠ "" →
  let sessionId := default "default" (req_sessionId req) in
  let trimmed := Text.trim m in
  let detectedMood := detectMood trimmed in
  let detectedMode := detectMode trimmed (req_mode req) in
  let d1 := insert_or_ignore_session (CURRENT_TIMESTAMP w) sessionId
              (Text.take 50 trimmed ++ "...") (db w) in
  let d2 := stored_turn (CURRENT_TIMESTAMP w) sessionId user trimmed
              (Some (Mood_to_string detectedMood)) (Some detectedMode) d1 in
  let w2 := with_db d2 w in
  let history := reverse (select_history sessionId 10 d2) in
  ∃ (k : nat) (response : js_string),
    (k ≤ 2)%nat ∧
    generateAIResponse generateContent builtin_text
      trimmed detectedMood detectedMode history 2 w2
    = (resolved response, called (after_retries k w2)) ∧
    post_api_chat generateContent builtin_text req w
    = (json (chat_json response detectedMood detectedMode),
       with_db (stored_turn (CURRENT_TIMESTAMP (called (after_retries k w2)))
                  sessionId assistant response
                  (Some (Mood_to_string detectedMood)) (Some detectedMode) d2)
         (called (after_retries k w2))).
Proof.
  intros Hm Ht sessionId trimmed detectedMood detectedMode d1 d2 w2 history.
  pose proof (trim_nonempty m Ht) as Hne.
  unfold post_api_chat, chat_try. rewrite Hm.
  rewrite (bool_decide_eq_false_2 (m = "")) by done.
  rewrite (bool_decide_eq_false_2 (Text.trim m = "")) by done.
  cbn [orb]. fold sessionId trimmed detectedMood detectedMode.
  unfold bind at 1. unfold createSession at 1. fold d1.
  assert (is_Some (sessions d1 !! sessionId)) as Hs1
    by apply insert_or_ignore_session_has.
  unfold bind at 1.
  rewrite (saveMessage_stored sessionId user trimmed _ _ (with_db d1 w)) by done.
  change (with_db _ (with_db d1 w)) with w2.
  unfold bind at 1. unfold getConversationHistory at 1.
  change (must_be_int 10) with true. cbv iota.
  change (reverse (select_history sessionId 10 (db w2))) with history.
  destruct (generate_spec generateContent builtin_text
              trimmed detectedMood detectedMode history 2 w2)
    as (k & response & Hrun & Hk & _).
  exists k, response. split; [lia|]. split; [done|].
  unfold bind at 1. rewrite Hrun.
  assert (is_Some (sessions (db (called (after_retries k w2))) !! sessionId)) as Hs3
    by by apply stored_turn_session.
  unfold bind. rewrite (saveMessage_stored _ _ _ _ _ _ Hs3). by unfold ret.
Qed.

End Pipeline.

(** ** What a chat request leaves behind *)


(** X9: what a chat request stores as the user's turn is the message without
    its surrounding white space: it is not empty, trimming it again changes
    nothing, and the message is that text between two runs of white space. *)
Theorem chat_stores_trimmed_message
    (generateContent : nat → js_string → Outcome) (builtin_text : js_string → js_string)
    (req : ChatRequest) (m : js_string) (w : World) :
  req_message req = Some m → Text.trim m ≠ "" →
  ∃ u a pre post,
    conversations (db (post_api_chat generateContent builtin_text req w).2)
    = (conversations (db w) ++ [u; a])%list ∧
    role u = user ∧
    content u ≠ "" ∧ Text.trim (content u) = content u ∧
    Text.blank pre = true ∧ Text.blank post = true ∧
    m = pre ++ content u ++ post.
Proof.
  intros Hm Hvisible.
  destruct (chat_run generateContent builtin_text req m w Hm Hvisible)
    as (history & w2 & response & w3 & w' & _ & _ & _ & Hpost & _ & _ & Hconv & _).
  destruct (trim_split m) as (pre & post & Hpre & Hpost' & Hsplit).
  eexists _, _, pre, post. rewrite Hpost. split; [exact Hconv|]. simpl.
  split; [done|]. split; [done|]. split; [apply trim_idemp|]. done.
Qed.

Lemma chat_stores_trimmed_message_witness :
  ∃ u a pre post,
    conversations
      (db (post_api_chat (always_answering "hello") plain_builtin_text
             {| req_message := Some "  hi there  "; req_sessionId := None;
                req_mode := None |} fresh_world).2)
    = (conversations (db fresh_world) ++ [u; a])%list ∧
    role u = user ∧
    content u ≠ "" ∧ Text.trim (content u) = content u ∧
    Text.blank pre = true ∧ Text.blank post = true ∧
    "  hi there  " = pre ++ content u ++ post.
Proof.
  apply (chat_stores_trimmed_message (always_answering "hello") plain_builtin_text
           {| req_message := Some "  hi there  "; req_sessionId := None;
              req_mode := None |} "  hi there  " fresh_world);
    [reflexivity | done].
Defined.






(** ** History on a chronological table *)

Lemma StronglySorted_filter {A} (R : relation A) (P : A → Prop)
    `{∀ x, Decision (P x)} (l : list A) :
  StronglySorted R l → StronglySorted R (filter P l).
Proof.
  induction 1 as [|x l Hl IH Hx]; [constructor|].
  rewrite filter_cons. destruct (decide (P x)); [|done].
  constructor; [done|].
  rewrite Forall_forall in Hx |- *.
  intros y [_ Hy]%list_elem_of_filter. by apply Hx.
Qed.

Lemma older_asym a b : older a b → older b a → False.
Proof. unfold older. lia. Qed.

(** On a table kept in chronological order the newest-first scan of a session
    is its turns read backwards. *)
Lemma scan_is_reverse sessionId d :
  well_formed d → StronglySorted older (conversations d) →
  merge_sort (flip index_le) (turns_of sessionId d) = reverse (turns_of sessionId d).
Proof.
  intros Hwf Hsorted.
  apply (StronglySorted_unique_strong (flip older)).
  - intros x y _ _ Hxy Hyx. by destruct (older_asym y x).
  - by apply scan_sorted.
  - apply (Sorted_StronglySorted _), (Sorted_reverse older).
    by apply StronglySorted_Sorted, StronglySorted_filter.
  - by rewrite merge_sort_Permutation, reverse_Permutation.
Qed.

Lemma history_suffix sessionId limit d :
  well_formed d → StronglySorted older (conversations d) → (0 ≤ limit)%Z →
  reverse (select_history sessionId limit d)
  = last_n (Z.to_nat limit) (turns_of sessionId d).
Proof.
  intros Hwf Hsorted Hlimit. unfold select_history, sql_limit, last_n.
  replace (limit <? 0)%Z with false by lia.
  rewrite scan_is_reverse by done.
  by rewrite take_reverse, reverse_involutive.
Qed.

(** X12: while turns sit in the table in chronological order, the history of
    a session for a limit [n] with [0 ≤ n < 2^63 - 1] is the last [n] of the
    rows of the table that carry the session's id, in the order they were
    written. *)
Theorem history_is_latest_suffix (sessionId : js_string) (limit : Z) (w : World) :
  time_ordered w → (0 ≤ limit < LARGEST_INT64)%Z →
  getConversationHistory sessionId limit w
  = (resolved
       (last_n (Z.to_nat limit)
          (filter (fun m => session_id m = sessionId) (conversations (db w)))),
     w).
Proof.
  intros (Hwf & Hsorted & _) Hlimit.
  rewrite getConversationHistory_in_range by (unfold SMALLEST_INT64; lia).
  rewrite history_suffix by (done || lia). done.
Qed.

Lemma sample_world_time_ordered : time_ordered sample_world.
Proof.
  repeat split; apply (bool_decide_unpack _); vm_compute; exact I.
Qed.

Lemma history_is_latest_suffix_witness :
  getConversationHistory "s1" 1 sample_world
  = (resolved
       (last_n (Z.to_nat 1)
          (filter (fun m => session_id m = "s1") (conversations (db sample_world)))),
     sample_world).
Proof.
  apply (history_is_latest_suffix "s1" 1 sample_world);
    [apply sample_world_time_ordered | unfold LARGEST_INT64; lia].
Defined.

(** ** Invariants over every sequence of events *)

Lemma ordered_at_mono now now' d :
  (now ≤ now')%Z → ordered_at now d → ordered_at now' d.
Proof.
  intros Hle (Hwf & Hsorted & Hpast). split; [done|]. split; [done|].
  eapply Forall_impl; [exact Hpast|]. simpl. intros m ?. lia.
Qed.

Lemma ordered_at_insert_or_ignore_session now ts sessionId title' d :
  ordered_at now d → ordered_at now (insert_or_ignore_session ts sessionId title' d).
Proof. unfold insert_or_ignore_session. by destruct (sessions d !! sessionId). Qed.

Lemma ordered_at_delete_from_sessions now sessionId d :
  ordered_at now d → ordered_at now (delete_from_sessions sessionId d).
Proof.
  intros (Hwf & Hsorted & Hpast).
  split; [by apply well_formed_delete_from_sessions|].
  unfold delete_from_sessions; simpl.
  destruct (foreign_keys d && _); [|done]. split.
  - by apply StronglySorted_filter.
  - rewrite Forall_forall in Hpast |- *.
    intros m [_ Hm]%list_elem_of_filter. by apply Hpast.
Qed.

Lemma ordered_at_stored_turn now sessionId r text mood' mode' d :
  ordered_at now d →
  ordered_at now (stored_turn now sessionId r text mood' mode' d).
Proof.
  intros (Hwf & Hsorted & Hpast).
  split; [|split].
  - destruct Hwf as [Hdup Hmax]. split; simpl.
    + rewrite fmap_app. apply NoDup_app. split; [done|]. split; [|apply NoDup_singleton].
      intros i (m & -> & Hm)%list_elem_of_fmap_1.
      rewrite Forall_forall in Hmax. specialize (Hmax m Hm).
      intros ?%list_elem_of_singleton. simpl in *. lia.
    + apply Forall_app. split; [|by repeat constructor].
      eapply Forall_impl; [exact Hmax|]. simpl. intros m ?. lia.
  - simpl. apply StronglySorted_app.
    split; [|split; [done | by repeat constructor]].
    intros m m' Hm ->%list_elem_of_singleton.
    destruct Hwf as [_ Hmax]. rewrite Forall_forall in Hmax, Hpast.
    specialize (Hmax m Hm). specialize (Hpast m Hm).
    unfold older; simpl. lia.
  - simpl. apply Forall_app. split; [done|]. repeat constructor. simpl. lia.
Qed.

Lemma CURRENT_TIMESTAMP_after_retries k w :
  (CURRENT_TIMESTAMP w ≤ CURRENT_TIMESTAMP (called (after_retries k w)))%Z.
Proof.
  unfold CURRENT_TIMESTAMP, called, after_retries; simpl.
  pose proof (spent_nonneg (latency w) (calls w) k).
  apply Z.div_le_mono; lia.
Qed.

Section RunFacts.
Context (generateContent : nat → js_string → Outcome).
Context (builtin_text : js_string → js_string).

Lemma post_api_chat_time_ordered req w :
  time_ordered w →
  time_ordered (post_api_chat generateContent builtin_text req w).2.
Proof.
  intros Hw.
  destruct (req_message req) as [m|] eqn:Hm.
  - destruct (decide (Text.trim m = "")) as [Hblank | Hvisible].
    + rewrite chat_blank; [done|]. rewrite Hm. by apply trim_empty_iff.
    + destruct (chat_outcome generateContent builtin_text req m w Hm Hvisible)
        as (k & response & _ & _ & Hpost).
      rewrite Hpost. unfold time_ordered. cbn [snd].
      change (db (with_db ?d _)) with d.
      change (CURRENT_TIMESTAMP (with_db _ ?w')) with (CURRENT_TIMESTAMP w').
      apply ordered_at_stored_turn.
      eapply ordered_at_mono;
        [apply (CURRENT_TIMESTAMP_after_retries k (with_db _ w))|].
      change (CURRENT_TIMESTAMP (with_db _ w)) with (CURRENT_TIMESTAMP w).
      by apply ordered_at_stored_turn, ordered_at_insert_or_ignore_session.
  - rewrite chat_blank; [done|]. by rewrite Hm.
Qed.

Lemma handle_time_ordered e w :
  time_ordered w → time_ordered (handle generateContent builtin_text e w).
Proof.
  intros Hw. destruct e as [req | sid | | t | sid t | sid | ms]; simpl.
  - by apply post_api_chat_time_ordered.
  - done.
  - done.
  - by apply ordered_at_insert_or_ignore_session.
  - done.
  - by apply ordered_at_delete_from_sessions.
  - unfold time_ordered, elapse, CURRENT_TIMESTAMP; simpl.
    eapply ordered_at_mono; [|exact Hw].
    unfold CURRENT_TIMESTAMP. apply Z.div_le_mono; lia.
Qed.

Lemma handle_foreign_keys e w :
  foreign_keys (db (handle generateContent builtin_text e w)) = foreign_keys (db w).
Proof.
  destruct e as [req | sid | | t | sid t | sid | ms]; simpl; try done.
  - by destruct (pragma_untouched generateContent builtin_text req "" "" w).
  - unfold insert_or_ignore_session. by destruct (sessions (db w) !! _).
Qed.

Lemma handle_keeps_turns e w :
  foreign_keys (db w) = false →
  conversations (db w) `prefix_of`
    conversations (db (handle generateContent builtin_text e w)).
Proof.
  intros Hoff. destruct e as [req | sid | | t | sid t | sid | ms]; simpl; try done.
  - destruct (req_message req) as [m|] eqn:Hm.
    + destruct (decide (Text.trim m = "")) as [Hblank | Hvisible].
      * rewrite chat_blank; [done|]. rewrite Hm. by apply trim_empty_iff.
      * destruct (chat_run generateContent builtin_text req m w Hm Hvisible)
          as (? & ? & ? & ? & w' & _ & _ & _ & Hpost & _ & _ & Hconv & _).
        rewrite Hpost. simpl. rewrite Hconv. by eexists.
    + rewrite chat_blank; [done|]. by rewrite Hm.
  - unfold insert_or_ignore_session. by destruct (sessions (db w) !! _).
  - by rewrite Hoff.
Qed.

End RunFacts.

(** X13: every sequence of events keeps the table in chronological order
    with distinct row ids, provided it starts that way. *)
Theorem run_keeps_time_ordered
    (generateContent : nat → js_string → Outcome) (builtin_text : js_string → js_string)
    (events : list Event) (w : World) :
  time_ordered w → time_ordered (run generateContent builtin_text events w).
Proof.
  revert w. induction events as [|e events IH]; intros w Hw; [done|].
  simpl. by apply IH, handle_time_ordered.
Qed.

Lemma run_keeps_time_ordered_witness :
  time_ordered
    (run (always_failing (Some 500%Z)) plain_builtin_text
       [PostChat excited_request; Elapse 1500; DeleteSession "s1";
        PostChat excited_request] fresh_world).
Proof.
  apply (run_keeps_time_ordered (always_failing (Some 500%Z)) plain_builtin_text
           [PostChat excited_request; Elapse 1500; DeleteSession "s1";
            PostChat excited_request] fresh_world).
  repeat split; apply (bool_decide_unpack _); vm_compute; exact I.
Defined.

(** X14: on a connection that does not enforce foreign keys, as the server's
    is, no sequence of events removes or rewrites a stored turn: the table
    only grows at its end, and enforcement stays off. *)
Theorem run_only_appends
    (generateContent : nat → js_string → Outcome) (builtin_text : js_string → js_string)
    (events : list Event) (w : World) :
  foreign_keys (db w) = false →
  conversations (db w) `prefix_of`
    conversations (db (run generateContent builtin_text events w)) ∧
  foreign_keys (db (run generateContent builtin_text events w)) = false.
Proof.
  revert w. induction events as [|e events IH]; intros w Hoff; [done|].
  simpl.
  destruct (IH (handle generateContent builtin_text e w)) as [Hprefix Hoff'].
  { by rewrite handle_foreign_keys. }
  split; [|done].
  etrans; [by apply handle_keeps_turns | exact Hprefix].
Qed.

Lemma run_only_appends_witness :
  conversations (db sample_world) `prefix_of`
    conversations
      (db (run (always_answering "ok") plain_builtin_text
             [DeleteSession "s1"; PatchSession "s1" "Renamed";
              PostChat excited_request] sample_world)) ∧
  foreign_keys
    (db (run (always_answering "ok") plain_builtin_text
           [DeleteSession "s1"; PatchSession "s1" "Renamed";
            PostChat excited_request] sample_world)) = false.
Proof.
  by apply (run_only_appends (always_answering "ok") plain_builtin_text
              [DeleteSession "s1"; PatchSession "s1" "Renamed";
               PostChat excited_request] sample_world).
Defined.

(** ** A chat request seen through the read routes *)

Lemma turns_of_app sessionId d rows :
  filter (fun m => session_id m = sessionId) (conversations d ++ rows)%list
  = (turns_of sessionId d ++ filter (fun m => session_id m = sessionId) rows)%list.
Proof. apply filter_app. Qed.

(** X15: on a chronological table, the history served right after a chat
    request is the last 50 turns of the session as it was, followed by the new
    user turn and the new assistant turn. *)
Theorem chat_then_history
    (generateContent : nat → js_string → Outcome) (builtin_text : js_string → js_string)
    (req : ChatRequest) (m : js_string) (w : World) :
  time_ordered w →
  req_message req = Some m → Text.trim m ≠ "" →
  let sessionId := default "default" (req_sessionId req) in
  let w' := (post_api_chat generateContent builtin_text req w).2 in
  ∃ u a,
    role u = user ∧ content u = Text.trim m ∧
    role a = assistant ∧
    body (post_api_chat generateContent builtin_text req w).1
    = chat_json (content a) (detectMood (Text.trim m))
        (detectMode (Text.trim m) (req_mode req)) ∧
    get_api_history sessionId w'
    = (json (history_json
               (last_n 50
                  (filter (fun t => session_id t = sessionId) (conversations (db w))
                   ++ [u; a])%list)),
       w').
Proof.
  intros Hw Hm Hvisible sessionId w'.
  change (filter (fun t => session_id t = sessionId) (conversations (db w)))
    with (turns_of sessionId (db w)).
  pose proof (post_api_chat_time_ordered generateContent builtin_text req w Hw)
    as (Hwf & Hsorted & _).
  destruct (chat_run generateContent builtin_text req m w Hm Hvisible)
    as (history & w2 & response & w3 & w4 & _ & _ & _ & Hpost & _ & _ & Hconv & _).
  subst w'. rewrite Hpost in *. cbn [fst snd] in *.
  match type of Hconv with _ = (_ ++ [?u; ?a])%list => exists u, a end.
  split; [done|]. split; [done|]. split; [done|]. split; [done|].
  unfold get_api_history, getConversationHistory.
  rewrite history_suffix by (done || lia).
  unfold turns_of at 1. rewrite Hconv, turns_of_app.
  rewrite !filter_cons_True by done. by rewrite filter_nil.
Qed.

Lemma chat_then_history_witness :
  ∃ u a,
    role u = user ∧ content u = Text.trim "I'm so excited about this!" ∧
    role a = assistant ∧
    body (post_api_chat (always_answering "ok") plain_builtin_text
            excited_request sample_world).1
    = chat_json (content a) (detectMood (Text.trim "I'm so excited about this!"))
        (detectMode (Text.trim "I'm so excited about this!")
           (req_mode excited_request)) ∧
    get_api_history "s1"
      (post_api_chat (always_answering "ok") plain_builtin_text
         excited_request sample_world).2
    = (json (history_json
               (last_n 50
                  (filter (fun t => session_id t = "s1")
                     (conversations (db sample_world))
                   ++ [u; a])%list)),
       (post_api_chat (always_answering "ok") plain_builtin_text
          excited_request sample_world).2).
Proof.
  apply (chat_then_history (always_answering "ok") plain_builtin_text
           excited_request "I'm so excited about this!" sample_world);
    [apply sample_world_time_ordered | reflexivity | done].
Defined.



(** ** The session list *)

#[local] Instance updated_ge_total : Total updated_ge.
Proof. intros a b. unfold updated_ge. lia. Qed.

Lemma select_sessions_rows d :
  select_sessions d ≡ₚ session_row d <$> map_to_list (sessions d).
Proof. apply merge_sort_Permutation. Qed.



Lemma count_key (x : js_string) (keys : list js_string) :
  NoDup keys →
  sum_list_with (fun k => if bool_decide (x = k) then 1 else 0) keys
  = if bool_decide (x ∈ keys) then 1 else 0.
Proof.
  induction 1 as [|k keys Hk Hdup IH]; simpl; [done|].
  rewrite IH. destruct (decide (x = k)) as [->|Hne].
  - rewrite bool_decide_eq_true_2 by done.
    rewrite (bool_decide_eq_false_2 (k ∈ keys)) by done.
    by rewrite bool_decide_eq_true_2 by apply list_elem_of_here.
  - rewrite bool_decide_eq_false_2 by done. simpl.
    rewrite (bool_decide_ext (x ∈ k :: keys) (x ∈ keys)); [done|].
    rewrite elem_of_cons. split; [intros [? | ?]; done | by right].
Qed.

Lemma count_turns_by_key (keys : list js_string) (rows : list Message) :
  NoDup keys →
  sum_list_with (fun k => length (filter (fun m => session_id m = k) rows)) keys
  = length (filter (fun m => session_id m ∈ keys) rows).
Proof.
  intros Hdup. induction rows as [|m rows IH].
  - simpl. induction keys; simpl; [done|]. apply IHkeys. by inv Hdup.
  - rewrite (filter_cons (fun m => session_id m ∈ keys)).
    transitivity
      (sum_list_with (fun k => if bool_decide (session_id m = k) then 1 else 0) keys
       + sum_list_with
           (fun k => length (filter (fun m => session_id m = k) rows)) keys).
    + clear. induction keys as [|k keys IHk]; simpl; [done|].
      rewrite IHk, filter_cons.
      destruct (decide (session_id m = k)).
      * rewrite bool_decide_eq_true_2 by done. simpl. lia.
      * rewrite bool_decide_eq_false_2 by done. simpl. lia.
    + rewrite IH, count_key by done.
      destruct (decide (session_id m ∈ keys)).
      * by rewrite bool_decide_eq_true_2.
      * by rewrite bool_decide_eq_false_2.
Qed.

(** X18: the turn counts of the session list add up to the number of turns
    whose session is stored: no turn is counted twice, and turns left behind
    by a deleted session are counted nowhere. *)
Theorem session_list_counts (w : World) :
  sum_list_with message_count (reply_body (get_api_sessions w).1)
  = length (filter (fun m => is_Some (sessions (db w) !! session_id m))
              (conversations (db w))).
Proof.
  simpl. rewrite select_sessions_rows.
  transitivity
    (sum_list_with
       (fun k => length (filter (fun m => session_id m = k) (conversations (db w))))
       (map_to_list (sessions (db w))).*1).
  - generalize (map_to_list (sessions (db w))).
    intros l. induction l as [|[k s] l IH]; [done|].
    simpl. f_equal. exact IH.
  - rewrite count_turns_by_key by apply NoDup_fst_map_to_list.
    f_equal. apply list_filter_iff. intros m.
    rewrite list_elem_of_fmap. split.
    + intros ([k s] & -> & Hin%elem_of_map_to_list). by exists s.
    + intros [s Hs]. exists (session_id m, s).
      split; [done | by apply elem_of_map_to_list].
Qed.


Lemma alter_absent (f : Session → Session) (sid : js_string)
    (m : gmap js_string Session) :
  m !! sid = None → alter f sid m = m.
Proof. apply alter_id'. Qed.

(** X20: renaming or deleting a session that does not exist is a silent
    success: the route answers 200 and the world is left as it was. *)
Theorem unknown_session_is_silent (sessionId title' : js_string) (w : World) :
  sessions (db w) !! sessionId = None →
  patch_api_session sessionId title' w = (json success_json, w) ∧
  delete_api_session sessionId w = (json success_json, w).
Proof.
  intros Hnone. destruct w as [[fk ss cs sq] ck cl dl lt]. simpl in Hnone.
  unfold patch_api_session, delete_api_session, updateSessionTitle, deleteSession,
    update_session_title, delete_from_sessions, with_db; simpl.
  rewrite alter_absent, delete_id by done.
  rewrite Hnone, bool_decide_eq_false_2, andb_false_r; [done|].
  by intros [? ?].
Qed.

Lemma unknown_session_is_silent_witness :
  patch_api_session "nobody" "Renamed" sample_world = (json success_json, sample_world) ∧
  delete_api_session "nobody" sample_world = (json success_json, sample_world).
Proof.
  by apply (unknown_session_is_silent "nobody" "Renamed" sample_world).
Defined.

(** X21: renaming an existing session replaces its title, keeps its creation
    time, stamps [updated_at], and touches neither the other sessions nor any
    turn. *)
Theorem patch_renames (sessionId title' : js_string) (w : World) (s : Session) :
  sessions (db w) !! sessionId = Some s →
  let w' := (patch_api_session sessionId title' w).2 in
  (patch_api_session sessionId title' w).1 = json success_json ∧
  sessions (db w') !! sessionId
  = Some {| title := title'; created_at := created_at s;
            updated_at := CURRENT_TIMESTAMP w |} ∧
  (∀ sid, sid ≠ sessionId → sessions (db w') !! sid = sessions (db w) !! sid) ∧
  conversations (db w') = conversations (db w).
Proof.
  intros Hs w'. split; [done|]. subst w'. simpl. split; [|split; [|done]].
  - by rewrite lookup_alter_eq, Hs.
  - intros sid Hsid. by rewrite lookup_alter_ne.
Qed.

Lemma patch_renames_witness :
  sessions (db (patch_api_session "s1" "Renamed" sample_world).2) !! "s1"
  = Some {| title := "Renamed"; created_at := 5; updated_at := 5 |}.
Proof.
  destruct (patch_renames "s1" "Renamed" sample_world
              {| title := "I'm so excited about this!..."; created_at := 5;
                 updated_at := 5 |}) as (_ & Hs & _); [reflexivity|].
  exact Hs.
Defined.

(** X22: after a chat request the session list shows the request's session
    with two turns more than it had. *)
Theorem chat_counts_two_more
    (generateContent : nat → js_string → Outcome) (builtin_text : js_string → js_string)
    (req : ChatRequest) (m : js_string) (w : World) :
  req_message req = Some m → Text.trim m ≠ "" →
  let sessionId := default "default" (req_sessionId req) in
  let w' := (post_api_chat generateContent builtin_text req w).2 in
  ∃ row,
    row ∈ reply_body (get_api_sessions w').1 ∧
    row_id row = sessionId ∧
    message_count row
    = length (filter (fun t => session_id t = sessionId) (conversations (db w))) + 2.
Proof.
  intros Hm Hvisible sessionId w'.
  change (filter (fun t => session_id t = sessionId) (conversations (db w)))
    with (turns_of sessionId (db w)).
  destruct (chat_run generateContent builtin_text req m w Hm Hvisible)
    as (history & w2 & response & w3 & w4 & _ & _ & _ & Hpost & _ & _ & Hconv & _).
  destruct (chat_outcome generateContent builtin_text req m w Hm Hvisible)
    as (k & response' & _ & _ & Hpost').
  assert (is_Some (sessions (db w') !! sessionId)) as [s Hs].
  { subst w'. rewrite Hpost'. cbn [snd]. change (db (with_db ?d _)) with d.
    apply stored_turn_session, stored_turn_session, insert_or_ignore_session_has. }
  exists (session_row (db w') (sessionId, s)). split; [|split; [done|]].
  - simpl. rewrite select_sessions_rows. apply list_elem_of_fmap_2.
    by apply elem_of_map_to_list.
  - simpl. unfold turns_of at 1. subst w'. rewrite Hpost. cbn [snd].
    rewrite Hconv, turns_of_app, !filter_cons_True, filter_nil by done.
    rewrite length_app. simpl. lia.
Qed.

Lemma chat_counts_two_more_witness :
  ∃ row,
    row ∈ reply_body
            (get_api_sessions
               (post_api_chat (always_answering "ok") plain_builtin_text
                  excited_request sample_world).2).1 ∧
    row_id row = "s1" ∧
    message_count row
    = length (filter (fun t => session_id t = "s1")
                (conversations (db sample_world))) + 2.
Proof.
  apply (chat_counts_two_more (always_answering "ok") plain_builtin_text
           excited_request "I'm so excited about this!" sample_world);
    [reflexivity | done].
Defined.

(** ** The first server *)

(** X23: the first server validates nothing.  Any message text, blank or
    empty included, is stored untrimmed and answered 200 after exactly one
    provider call and no wait, with the provider's text or the one fixed
    apology; a request without a message is answered 500 and stores nothing. *)
Theorem old_chat_accepts_any_text
    (generateContent : nat → js_string → Outcome) (builtin_text : js_string → js_string)
    (order_by_timestamp_desc : list Message → list Message)
    (req : ChatRequest) (w : World) :
  (req_message req = None →
   OldServer.post_api_chat generateContent builtin_text order_by_timestamp_desc req w
   = ({| status := 500;
         body := chat_json OldServer.went_wrong neutral (or_friend (req_mode req)) |},
      w)) ∧
  (∀ m, req_message req = Some m →
     ∃ u a response w',
       OldServer.post_api_chat generateContent builtin_text
         order_by_timestamp_desc req w
       = (json (chat_json response (detectMood m)
                  (OldServer.detectMode m (req_mode req))), w') ∧
       conversations (db w') = (conversations (db w) ++ [u; a])%list ∧
       role u = user ∧ content u = m ∧
       role a = assistant ∧ content a = response ∧
       mood a = mood u ∧ mode a = mode u ∧
       sessions (db w') = sessions (db w) ∧
       calls w' = S (calls w) ∧ delays w' = delays w ∧
       ((∃ p, generateContent (calls w) p = generated response) ∨
        response = OldServer.trouble_connecting)).
Proof.
  split.
  - intros Hm. unfold OldServer.post_api_chat. by rewrite Hm.
  - intros m Hm. unfold OldServer.post_api_chat. rewrite Hm.
    unfold OldServer.saveMessage at 1, OldServer.insert_conversation at 1.
    cbv zeta. unfold OldServer.getConversationHistory.
    change (must_be_int 10) with true. cbv iota.
    unfold OldServer.generateAIResponse.
    match goal with
    | |- context [generateContent ?n ?p] =>
        destruct (generateContent n p) as [text | st] eqn:Hcall
    end.
    + eexists _, _, _, _. split; [reflexivity|]. simpl.
      rewrite <- app_assoc. split; [reflexivity|].
      repeat (split; [done|]). left. eexists. exact Hcall.
    + eexists _, _, _, _. split; [reflexivity|]. simpl.
      rewrite <- app_assoc. split; [reflexivity|].
      repeat (split; [done|]). by right.
Qed.

(** ** Client *)

(** X24: for a time stamp that is a date, [formatTimestamp] says "Just now"
    for anything less than a minute old, the future included; a whole number
    of minutes from 1 to 59 below an hour; a whole number of hours from 1 to 23
    below a day; and the clock text from a day on. *)
Theorem formatTimestamp_ranges
    (getTime : String.string → option Z) (toLocaleTimeString : option Z → String.string)
    (now date : Z) (ts : String.string) :
  ts ≠ ""%string → getTime ts = Some date →
  let shown := formatTimestamp getTime toLocaleTimeString now (Some ts) in
  let age := (now - date)%Z in
  ((age < 60000)%Z → shown = "Just now"%string) ∧
  ((60000 ≤ age < 3600000)%Z →
   ∃ minutes, (1 ≤ minutes ≤ 59)%Z ∧ (60000 * minutes ≤ age < 60000 * (minutes + 1))%Z ∧
              shown = (pretty minutes ++ "m ago")%string) ∧
  ((3600000 ≤ age < 86400000)%Z →
   ∃ hours, (1 ≤ hours ≤ 23)%Z ∧ (3600000 * hours ≤ age < 3600000 * (hours + 1))%Z ∧
            shown = (pretty hours ++ "h ago")%string) ∧
  ((86400000 ≤ age)%Z → shown = toLocaleTimeString (Some date)).
Proof.
  intros Hts Hdate shown age. subst shown. unfold formatTimestamp.
  rewrite bool_decide_eq_false_2, Hdate by done. cbv zeta. fold age.
  pose proof (Z.div_mod age 60000 ltac:(lia)) as Hmin.
  pose proof (Z.mod_pos_bound age 60000 ltac:(lia)) as Hmin'.
  pose proof (Z.div_mod age 3600000 ltac:(lia)) as Hhour.
  pose proof (Z.mod_pos_bound age 3600000 ltac:(lia)) as Hhour'.
  repeat split.
  - intros Hage. by replace (age / 60000 <? 1)%Z with true by lia.
  - intros Hage. exists (age / 60000)%Z.
    replace (age / 60000 <? 1)%Z with false by lia.
    replace (age / 60000 <? 60)%Z with true by lia.
    split; [lia|]. split; [lia|]. done.
  - intros Hage. exists (age / 3600000)%Z.
    replace (age / 60000 <? 1)%Z with false by lia.
    replace (age / 60000 <? 60)%Z with false by lia.
    replace (age / 3600000 <? 24)%Z with true by lia.
    split; [lia|]. split; [lia|]. done.
  - intros Hage.
    replace (age / 60000 <? 1)%Z with false by lia.
    replace (age / 60000 <? 60)%Z with false by lia.
    by replace (age / 3600000 <? 24)%Z with false by lia.
Qed.

Lemma formatTimestamp_ranges_witness :
  formatTimestamp (fun _ => Some 1000%Z) (fun _ => "10:15 AM"%string) 7261000
    (Some "stamp"%string)
  = "2h ago"%string.
Proof.
  destruct (formatTimestamp_ranges (fun _ => Some 1000%Z) (fun _ => "10:15 AM"%string)
              7261000 1000 "stamp"%string) as (_ & _ & Hhours & _); [done | done |].
  destruct Hhours as (hours & Hrange & Hage & Hshown); [lia|].
  rewrite Hshown. by replace hours with 2%Z by lia.
Defined.

(** ** The first session list *)

#[local] Instance last_ge_total : Total OldDatabase.last_ge.
Proof. intros a b. unfold OldDatabase.last_ge. lia. Qed.

Lemma min_timestamp_le first rest :
  (OldDatabase.min_timestamp first rest ≤ first)%Z ∧
  Forall (fun t => (OldDatabase.min_timestamp first rest ≤ t)%Z) rest.
Proof.
  induction rest as [|t rest [IH1 IH2]]; simpl; [split; [lia | constructor]|].
  split; [lia|]. constructor; [lia|].
  eapply Forall_impl; [exact IH2|]. simpl. intros. lia.
Qed.

Lemma max_timestamp_ge first rest :
  (first ≤ OldDatabase.max_timestamp first rest)%Z ∧
  Forall (fun t => (t ≤ OldDatabase.max_timestamp first rest)%Z) rest.
Proof.
  induction rest as [|t rest [IH1 IH2]]; simpl; [split; [lia | constructor]|].
  split; [lia|]. constructor; [lia|].
  eapply Forall_impl; [exact IH2|]. simpl. intros. lia.
Qed.

Lemma filter_everything {A} (P : A → Prop) `{∀ x, Decision (P x)} (l : list A) :
  (∀ x, x ∈ l → P x) → filter P l = l.
Proof.
  induction l as [|x l IH]; intros Hall; [done|].
  rewrite filter_cons_True by apply Hall, list_elem_of_here.
  f_equal. apply IH. intros y Hy. by apply Hall, list_elem_of_further.
Qed.

(** X25: the first session list has one row for every session id that has a
    turn and none for any other; a row counts at least one turn, its start and
    last-message times bound the time stamps of all turns of the session, and
    the counts of all rows add up to the number of turns in the table. *)
Theorem old_session_list_spec (d : Database) :
  let rows := OldDatabase.getAllSessions d in
  Sorted OldDatabase.last_ge rows ∧
  NoDup (OldDatabase.group_session_id <$> rows) ∧
  (∀ sid, sid ∈ OldDatabase.group_session_id <$> rows ↔
          ∃ m, m ∈ conversations d ∧ session_id m = sid) ∧
  (∀ row, row ∈ rows →
     OldDatabase.message_count row
     = length (turns_of (OldDatabase.group_session_id row) d) ∧
     (1 ≤ OldDatabase.message_count row)%nat ∧
     ∀ m, m ∈ turns_of (OldDatabase.group_session_id row) d →
          (OldDatabase.started_at row ≤ timestamp m
           ≤ OldDatabase.last_message_at row)%Z) ∧
  sum_list_with OldDatabase.message_count rows = length (conversations d).
Proof.
  intros rows.
  assert (rows ≡ₚ OldDatabase.summary (conversations d)
                    <$> remove_dups (session_id <$> conversations d)) as Hrows
    by apply merge_sort_Permutation.
  assert (OldDatabase.group_session_id <$> rows
          ≡ₚ remove_dups (session_id <$> conversations d)) as Hids.
  { rewrite Hrows. generalize (remove_dups (session_id <$> conversations d)).
    intros l. induction l as [|k l IH]; [done|]. simpl. by f_equiv. }
  split; [apply Sorted_merge_sort, _|]. split; [|split; [|split]].
  - rewrite Hids. apply NoDup_remove_dups.
  - intros sid. rewrite Hids, elem_of_remove_dups, list_elem_of_fmap.
    split; [intros (m & -> & Hm) | intros (m & Hm & <-)]; by exists m.
  - intros row. rewrite Hrows.
    intros (sid & -> & Hsid)%list_elem_of_fmap.
    apply elem_of_remove_dups, list_elem_of_fmap in Hsid as (m0 & -> & Hm0).
    unfold OldDatabase.summary; simpl. fold (turns_of (session_id m0) d).
    assert (m0 ∈ turns_of (session_id m0) d) as Hin
      by by apply list_elem_of_filter.
    rewrite length_fmap. split; [done|]. split.
    { destruct (turns_of (session_id m0) d); [by apply not_elem_of_nil in Hin|].
      simpl. lia. }
    intros m Hm.
    destruct (turns_of (session_id m0) d) as [|m1 l];
      [by apply not_elem_of_nil in Hm|]. simpl.
    destruct (min_timestamp_le (timestamp m1) (timestamp <$> l)) as [Hmin Hmins].
    destruct (max_timestamp_ge (timestamp m1) (timestamp <$> l)) as [Hmax Hmaxs].
    rewrite Forall_forall in Hmins, Hmaxs.
    unfold OldDatabase.min_timestamp, OldDatabase.max_timestamp in *.
    apply elem_of_cons in Hm as [-> | Hm]; [split; [exact Hmin | exact Hmax]|].
    split; [apply Hmins | apply Hmaxs]; by apply list_elem_of_fmap_2.
  - rewrite Hrows.
    transitivity
      (sum_list_with
         (fun k => length (filter (fun m => session_id m = k) (conversations d)))
         (remove_dups (session_id <$> conversations d))).
    + generalize (remove_dups (session_id <$> conversations d)).
      intros l. induction l as [|k l IH]; [done|].
      simpl. rewrite length_fmap. f_equal. exact IH.
    + rewrite count_turns_by_key by apply NoDup_remove_dups.
      f_equal. apply filter_everything. intros m Hm.
      apply elem_of_remove_dups. by apply list_elem_of_fmap_2.
Qed.
